(** * Group permissions of a dataroom: the permission tree and its edits

    A shallow embedding of [components/datarooms/groups/group-permissions.tsx]:
    the tree of files and folders built by [buildTree], the edit performed by
    [updatePermissions] (with its local functions [findItemAndParents],
    [updateItemInTree], [updateSubItems] and [collectChanges]), the flush of
    the pending changes by [saveChanges] and the value of the toggles of a row
    in [createColumns].

    React state is modelled by explicit state passing: the two state cells
    [data] and [pendingChanges] form the record [State]; a callback takes the
    state and returns the next one, together with the calls it makes to the
    outside when it has some.  JavaScript objects used as maps are [gmap]s
    with string keys, optional fields are [option]s, arrays are lists. *)

From Stdlib Require Import List Bool Arith Lia.
From stdpp Require Import base option gmap strings list fin_maps.
Import ListNotations.

Set Default Proof Using "Type".

(** ** Data model *)

(** Modelled from the spec: the enum [ItemType] is generated by Prisma and is
    not part of the component; the component uses its two members
    [DATAROOM_DOCUMENT] and [DATAROOM_FOLDER] (spec: kind ∈ {Folder, Document}). *)
Inductive ItemType : Set :=
  | DATAROOM_DOCUMENT
  | DATAROOM_FOLDER.

(** [permissions: { view: boolean; download: boolean; partialView?: boolean }] *)
Record Permissions : Set := mkPermissions {
  view : bool;
  download : bool;
  partialView : option bool
}.

(** [type FileOrFolder]: [subItems] and [documentId] are optional fields.
    The induction principle for this nested type is [FileOrFolder_nested_ind]
    below. *)
#[local] Unset Elimination Schemes.
Inductive FileOrFolder : Set := mkFileOrFolder {
  id : string;
  name : string;
  subItems : option (list FileOrFolder);
  permissions : Permissions;
  itemType : ItemType;
  documentId : option string
}.
#[local] Set Elimination Schemes.

(** One value of the record [ItemPermission]. *)
Record PermissionEntry : Set := mkEntry {
  entry_view : bool;
  entry_download : bool;
  entry_itemType : ItemType
}.

(** [type ItemPermission = Record<string, {view, download, itemType}>] *)
Abbreviation ItemPermission := (gmap string PermissionEntry).

(** The object [updatedPermissions] of [updatePermissions]. *)
Record UpdatedPermissions : Set := mkUpdated {
  upd_view : bool;
  upd_download : bool
}.

(** The two state cells of the component. *)
Record State : Type := mkState {
  data : list FileOrFolder;
  pendingChanges : ItemPermission
}.

(** ** Array helpers *)

Section Loops.
Context {A B : Type}.
Variable f : A -> option B.

(** [for (const x of xs) { const r = f(x); if (r) return r; } return null;] *)
Fixpoint first_result (xs : list A) : option B :=
  match xs with
  | [] => None
  | x :: rest =>
      match f x with
      | Some r => Some r
      | None => first_result rest
      end
  end.
End Loops.

(** [xs || []] for an optional array. *)
Definition or_empty {A : Type} (xs : option (list A)) : list A :=
  match xs with
  | Some l => l
  | None => []
  end.

(** ** [findItemAndParents] *)

(** The body of the loop of [findItemAndParents] for one [item]. *)
Fixpoint findInItem (targetId : string) (item : FileOrFolder)
    (parents : list FileOrFolder) : option (FileOrFolder * list FileOrFolder) :=
  if String.eqb (id item) targetId then Some (item, parents)
  else
    match item with
    | mkFileOrFolder _ _ (Some subs) _ _ _ =>
        first_result (fun sub => findInItem targetId sub (parents ++ [item])) subs
    | mkFileOrFolder _ _ None _ _ _ => None
    end.

Definition findItemAndParents (items : list FileOrFolder) (targetId : string)
    (parents : list FileOrFolder) : option (FileOrFolder * list FileOrFolder) :=
  first_result (fun item => findInItem targetId item parents) items.

(** ** The special cases applied to the requested flags *)

(** [newPermissions.includes(key)] *)
Definition includes (newPermissions : list string) (key : string) : bool :=
  existsb (String.eqb key) newPermissions.

Definition requested (newPermissions : list string) : UpdatedPermissions :=
  {| upd_view := includes newPermissions "view";
     upd_download := includes newPermissions "download" |}.

(** The [if ... else if ...] that follows the comment "Special cases";
    [itemDownload] is [item.permissions.download] of the item found. *)
Definition specialCases (updatedPermissions : UpdatedPermissions)
    (itemDownload : bool) : UpdatedPermissions :=
  if negb (upd_view updatedPermissions) && itemDownload then
    {| upd_view := upd_view updatedPermissions; upd_download := false |}
  else if upd_download updatedPermissions && negb (upd_view updatedPermissions) then
    {| upd_view := true; upd_download := upd_download updatedPermissions |}
  else updatedPermissions.

(** ** [updateSubItems] and [updateItemInTree] *)

Fixpoint updateSubItem (viewState : bool) (item : FileOrFolder) : FileOrFolder :=
  match item with
  | mkFileOrFolder i n subs p t d =>
      mkFileOrFolder i n
        (option_map (List.map (updateSubItem viewState)) subs)
        {| view := viewState;
           download := download p && viewState;
           partialView := Some false |}
        t d
  end.

Definition updateSubItems (items : list FileOrFolder) (viewState : bool)
    : list FileOrFolder :=
  List.map (updateSubItem viewState) items.

Section UpdateItemInTree.
(** The variables of [updatePermissions] captured by [updateItemInTree]. *)
Variable targetId : string.
Variable parents : list FileOrFolder.
Variable updatedPermissions : UpdatedPermissions.

(** [parents.some((parent) => parent.id === currentItem.id)] *)
Definition isParent (currentItem : FileOrFolder) : bool :=
  existsb (fun parent => String.eqb (id parent) (id currentItem)) parents.

Definition someViewable (items : list FileOrFolder) : bool :=
  existsb (fun subItem => view (permissions subItem)) items.

Definition allViewable (items : list FileOrFolder) : bool :=
  forallb (fun subItem => view (permissions subItem)) items.

(** The function mapped over [items] by [updateItemInTree]. *)
Fixpoint updateItem (currentItem : FileOrFolder) : FileOrFolder :=
  match currentItem with
  | mkFileOrFolder i n subs p t d =>
      if String.eqb i targetId then
        let newPermissions :=
          {| view := upd_view updatedPermissions;
             download := upd_download updatedPermissions;
             partialView := Some false |} in
        match t with
        | DATAROOM_FOLDER =>
            mkFileOrFolder i n
              (Some (updateSubItems (or_empty subs) (upd_view updatedPermissions)))
              newPermissions t d
        | DATAROOM_DOCUMENT => mkFileOrFolder i n subs newPermissions t d
        end
      else if isParent currentItem then
        let updatedSubItems :=
          match subs with
          | Some l => List.map updateItem l
          | None => []
          end in
        let someSubItemViewable := someViewable updatedSubItems in
        let allSubItemsViewable := allViewable updatedSubItems in
        mkFileOrFolder i n (Some updatedSubItems)
          {| view := someSubItemViewable;
             partialView := Some (someSubItemViewable && negb allSubItemsViewable);
             download := download p && someSubItemViewable |}
          t d
      else
        match subs with
        | Some l => mkFileOrFolder i n (Some (List.map updateItem l)) p t d
        | None => currentItem
        end
  end.

Definition updateItemInTree (items : list FileOrFolder) : list FileOrFolder :=
  List.map updateItem items.
End UpdateItemInTree.

(** ** [collectChanges] *)

Section CollectChanges.
Variable updatedPermissions : UpdatedPermissions.

(** The body of the [forEach] of [collectSubItemChanges]: the entry of
    [subItem] is written, then the entries of its own sub items. *)
Fixpoint collectSubItem (subItem : FileOrFolder) (changes : ItemPermission)
    : ItemPermission :=
  match subItem with
  | mkFileOrFolder i _ subs p t _ =>
      let changes :=
        <[ i := {| entry_view := upd_view updatedPermissions;
                   entry_download := download p && upd_view updatedPermissions;
                   entry_itemType := t |} ]> changes in
      match subs with
      | Some l => fold_left (fun acc sub => collectSubItem sub acc) l changes
      | None => changes
      end
  end.

Definition collectSubItemChanges (subItems : option (list FileOrFolder))
    (changes : ItemPermission) : ItemPermission :=
  match subItems with
  | Some l => fold_left (fun acc sub => collectSubItem sub acc) l changes
  | None => changes
  end.

(** [parent.subItems?.some(subItem => subItem.id === item.id
      ? updatedPermissions.view : subItem.permissions.view)]:
    [None] is the [undefined] of the optional chain. *)
Definition parentSomeViewable (item parent : FileOrFolder) : option bool :=
  option_map
    (existsb (fun subItem =>
       if String.eqb (id subItem) (id item) then upd_view updatedPermissions
       else view (permissions subItem)))
    (subItems parent).

(** [x || false] for [x : boolean | undefined]. *)
Definition or_false (x : option bool) : bool :=
  match x with
  | Some b => b
  | None => false
  end.

(** [(d && x) || false] for [x : boolean | undefined]. *)
Definition and_or_false (d : bool) (x : option bool) : bool :=
  if d then or_false x else false.

Definition collectChanges (item : FileOrFolder) (parents : list FileOrFolder)
    : ItemPermission :=
  let changes : ItemPermission :=
    {[ id item := {| entry_view := upd_view updatedPermissions;
                     entry_download := upd_download updatedPermissions;
                     entry_itemType := itemType item |} ]} in
  let changes := collectSubItemChanges (subItems item) changes in
  if upd_view updatedPermissions then
    fold_left
      (fun acc parent =>
         <[ id parent := {| entry_view := true;
                            entry_download := download (permissions parent);
                            entry_itemType := itemType parent |} ]> acc)
      parents changes
  else
    fold_left
      (fun acc parent =>
         let someSubItemViewable := parentSomeViewable item parent in
         <[ id parent :=
              {| entry_view := or_false someSubItemViewable;
                 entry_download :=
                   and_or_false (download (permissions parent)) someSubItemViewable;
                 entry_itemType := itemType parent |} ]> acc)
      (rev parents) changes.
End CollectChanges.

(** ** [updatePermissions] *)

(** The callback [updatePermissions(id, newPermissions)].  It returns nothing;
    its effect is the pair of calls [setData] and [setPendingChanges], which
    are both skipped by the early [return] when the item is not found.  The
    updater passed to [setData] runs on the same [data] the callback closed
    over (edits are applied one at a time). *)
Definition updatePermissions (st : State) (targetId : string)
    (newPermissions : list string) : State :=
  match findItemAndParents (data st) targetId [] with
  | None => st
  | Some (item, parents) =>
      let updatedPermissions :=
        specialCases (requested newPermissions) (download (permissions item)) in
      {| data := updateItemInTree targetId parents updatedPermissions (data st);
         pendingChanges :=
           collectChanges updatedPermissions item parents ∪ pendingChanges st |}
  end.

(** ** [saveChanges] *)

(** What the awaited [fetch] gives back: a response with its [ok] flag, or a
    rejected promise. *)
Inductive FetchOutcome : Set :=
  | Responded (ok : bool)
  | Rejected.

(** The calls [saveChanges] makes to the outside. *)
Inductive Effect : Type :=
  | Post (permissions : ItemPermission)
  | ToastSuccess
  | ConsoleError
  | ToastError.

Definition isPost (e : Effect) : bool :=
  match e with
  | Post _ => true
  | _ => false
  end.

Definition succeeded (outcome : FetchOutcome) : bool :=
  match outcome with
  | Responded ok => ok
  | Rejected => false
  end.

(** [saveChanges(changes)], given the outcome of its one [fetch]. *)
Definition saveChanges (st : State) (changes : ItemPermission)
    (outcome : FetchOutcome) : State * list Effect :=
  match outcome with
  | Responded true =>
      ({| data := data st; pendingChanges := ∅ |},
       [Post changes; ToastSuccess])
  | Responded false => (st, [Post changes; ConsoleError; ToastError])
  | Rejected => (st, [Post changes; ConsoleError; ToastError])
  end.

(** The effect on [debouncedPendingChanges]: it saves when the debounced map
    has a key. *)
Definition flushEffect (st : State) (debouncedPendingChanges : ItemPermission)
    (outcome : FetchOutcome) : State * list Effect :=
  if decide (debouncedPendingChanges = ∅) then (st, [])
  else saveChanges st debouncedPendingChanges outcome.

(** ** [buildTree] *)

(** Modelled from the spec: the Prisma record [ViewerGroupAccessControls] is
    declared outside the component; [buildTree] reads its fields [itemId],
    [canView] and [canDownload] (spec: list of {itemId, canView, canDownload}). *)
Record ViewerGroupAccessControls : Set := mkAccessControls {
  itemId : string;
  canView : bool;
  canDownload : bool
}.

(** [{ id, name }] of an attached document. *)
Record DocumentRef : Set := mkDocumentRef {
  document_id : string;
  document_name : string
}.

(** One element of [folder.documents]. *)
Record FolderDocument : Set := mkFolderDocument {
  fd_id : string;
  fd_document : DocumentRef
}.

(** A nullable field compared with [=== null]: absent, [null] or a string. *)
Inductive Nullable : Set :=
  | Undefined
  | Null
  | Value (s : string).

(** One element of the array [items] (typed [any[]] in the source): the
    fields [buildTree] reads. *)
Record RawItem : Set := mkRawItem {
  raw_id : string;
  raw_name : string;
  raw_parentId : option string;
  raw_folderId : Nullable;
  raw_document : option DocumentRef;
  raw_documents : option (list FolderDocument)
}.

(** [a === b] on [string | null]. *)
Definition parentId_eqb (a b : option string) : bool :=
  match a, b with
  | None, None => true
  | Some x, Some y => String.eqb x y
  | _, _ => false
  end.

Definition is_null (x : Nullable) : bool :=
  match x with
  | Null => true
  | _ => false
  end.

Definition is_none {A : Type} (x : option A) : bool :=
  match x with
  | None => true
  | Some _ => false
  end.

(** [item.document] read as a condition. *)
Definition has_document (item : RawItem) : bool := negb (is_none (raw_document item)).

Definition getPermissions (permissions : list ViewerGroupAccessControls)
    (id : string) : Permissions :=
  let permission := List.find (fun p => String.eqb (itemId p) id) permissions in
  {| view := match permission with Some p => canView p | None => false end;
     download := match permission with Some p => canDownload p | None => false end;
     partialView := Some false |}.

(** The folders of the level [parentId]. *)
Definition foldersAt (items : list RawItem) (parentId : option string) : list RawItem :=
  List.filter
    (fun item => parentId_eqb (raw_parentId item) parentId && negb (has_document item))
    items.

(** The documents of the level [parentId]. *)
Definition documentsAt (items : list RawItem) (parentId : option string) : list RawItem :=
  List.filter
    (fun item =>
       (parentId_eqb (raw_parentId item) parentId && has_document item)
       || (is_none parentId && is_null (raw_folderId item) && has_document item))
    items.

Definition folderDocument (permissions : list ViewerGroupAccessControls)
    (doc : FolderDocument) : FileOrFolder :=
  {| id := fd_id doc;
     documentId := Some (document_id (fd_document doc));
     name := document_name (fd_document doc);
     permissions := getPermissions permissions (fd_id doc);
     itemType := DATAROOM_DOCUMENT;
     subItems := None |}.

(** A document of the current level; the filter has checked [doc.document]. *)
Definition levelDocument (permissions : list ViewerGroupAccessControls)
    (doc : RawItem) : option FileOrFolder :=
  match raw_document doc with
  | Some document =>
      Some {| id := raw_id doc;
              documentId := Some (document_id document);
              name := document_name document;
              permissions := getPermissions permissions (raw_id doc);
              itemType := DATAROOM_DOCUMENT;
              subItems := None |}
  | None => None
  end.

(** The folder pushed on [result], from the already built [subItems]. *)
Definition buildFolder (permissions : list ViewerGroupAccessControls)
    (folder : RawItem) (subItems : list FileOrFolder) : FileOrFolder :=
  let folderDocuments :=
    List.map (folderDocument permissions) (or_empty (raw_documents folder)) in
  let allSubItems := subItems ++ folderDocuments in
  let folderPermissions := getPermissions permissions (raw_id folder) in
  let someSubItemViewable := someViewable allSubItems in
  let allSubItemsViewable := allViewable allSubItems in
  let view1 := view folderPermissions || someSubItemViewable in
  let partialView1 := someSubItemViewable && negb allSubItemsViewable in
  let view2 := view1 || someViewable allSubItems in
  {| id := raw_id folder;
     name := raw_name folder;
     subItems := Some allSubItems;
     permissions := {| view := view2;
                       download := download folderPermissions;
                       partialView := Some partialView1 |};
     itemType := DATAROOM_FOLDER;
     documentId := None |}.

(** [buildTree(items, permissions, parentId)].  The source recurses on the
    identifier of each folder of the level, which ends only when the
    [parentId] links have no cycle; [fuel] bounds the depth of the recursion
    and [None] is the exhausted bound. *)
Fixpoint buildTree (fuel : nat) (items : list RawItem)
    (permissions : list ViewerGroupAccessControls) (parentId : option string)
    : option (list FileOrFolder) :=
  match fuel with
  | O => None
  | S fuel' =>
      folders ← mapM
        (fun folder =>
           subItems ← buildTree fuel' items permissions (Some (raw_id folder));
           Some (buildFolder permissions folder subItems))
        (foldersAt items parentId);
      documents ← mapM (levelDocument permissions) (documentsAt items parentId);
      Some (folders ++ documents)
  end.

(** ** The nodes of a tree *)

(** [item] followed by all its descendants, in the order of a depth-first
    walk (the order of the rows of the table). *)
Fixpoint nodesOf (item : FileOrFolder) : list FileOrFolder :=
  match item with
  | mkFileOrFolder _ _ subs _ _ _ =>
      item :: match subs with
              | Some l => flat_map nodesOf l
              | None => []
              end
  end.

Definition nodes (items : list FileOrFolder) : list FileOrFolder :=
  flat_map nodesOf items.

Definition descendants (item : FileOrFolder) : list FileOrFolder :=
  nodes (or_empty (subItems item)).

(** What an edit must not touch: everything but the permissions.  An absent
    [subItems] and an empty one both have no children. *)
#[local] Unset Elimination Schemes.
Inductive Skeleton : Set :=
  | skel (i n : string) (t : ItemType) (d : option string) (children : list Skeleton).
#[local] Set Elimination Schemes.

Fixpoint skeleton (item : FileOrFolder) : Skeleton :=
  match item with
  | mkFileOrFolder i n subs _ t d =>
      skel i n t d match subs with
                   | Some l => List.map skeleton l
                   | None => []
                   end
  end.

(** [download ⇒ view] on one node. *)
Definition downloadImpliesView (item : FileOrFolder) : bool :=
  implb (download (permissions item)) (view (permissions item)).

(** The pair [{view, download}] of a node. *)
Definition viewDownload (item : FileOrFolder) : bool * bool :=
  (view (permissions item), download (permissions item)).

(** ** Induction on trees *)

Section NestedInduction.
Variable P : FileOrFolder -> Prop.
Hypothesis Hnode : forall i n subs p t d,
  Forall P (or_empty subs) -> P (mkFileOrFolder i n subs p t d).

Fixpoint FileOrFolder_nested_ind (item : FileOrFolder) : P item :=
  match item with
  | mkFileOrFolder i n subs p t d =>
      Hnode i n subs p t d
        match subs return Forall P (or_empty subs) with
        | Some l =>
            (fix all (l : list FileOrFolder) : Forall P l :=
               match l with
               | [] => @ListDef.Forall_nil _ P
               | x :: rest =>
                   @ListDef.Forall_cons _ P x rest (FileOrFolder_nested_ind x) (all rest)
               end) l
        | None => @ListDef.Forall_nil _ P
        end
  end.
End NestedInduction.

(** ** Where [findItemAndParents] finds an item *)

(** [FoundAt targetId items item ps]: [item] is the first node of [items], in
    the order of the walk, whose id is [targetId], and [ps] are its ancestors
    from the outermost to its parent. *)
Inductive FoundAt (targetId : string)
    : list FileOrFolder -> FileOrFolder -> list FileOrFolder -> Prop :=
  | found_here before x after :
      ~ In targetId (List.map id (nodes before)) ->
      id x = targetId ->
      FoundAt targetId (before ++ x :: after) x []
  | found_below before x after subs item ps :
      ~ In targetId (List.map id (nodes before)) ->
      id x <> targetId ->
      subItems x = Some subs ->
      FoundAt targetId subs item ps ->
      FoundAt targetId (before ++ x :: after) item (x :: ps).

(** The ancestors [ps] lead to [target]: each one holds the next among its
    sub items. *)
Fixpoint leadsTo (ps : list FileOrFolder) (target : FileOrFolder) : Prop :=
  match ps with
  | [] => True
  | p :: rest =>
      In (hd target rest) (or_empty (subItems p)) /\ leadsTo rest target
  end.

Definition prefixed (acc : list FileOrFolder)
    (r : FileOrFolder * list FileOrFolder) : FileOrFolder * list FileOrFolder :=
  (fst r, acc ++ snd r).

(** ** The vocabulary of the statements *)

(** The flags [updatePermissions] applies to the item it found. *)
Definition appliedFlags (newPermissions : list string) (item : FileOrFolder)
    : UpdatedPermissions :=
  specialCases (requested newPermissions) (download (permissions item)).

(** The permissions an ancestor gets from its updated sub items (spec:
    view = any(child.view), partialView = any AND NOT all, download = previous
    download AND view). *)
Definition aggregate (children : list FileOrFolder) (previousDownload : bool)
    : Permissions :=
  {| view := existsb (fun child => view (permissions child)) children;
     partialView :=
       Some (existsb (fun child => view (permissions child)) children
             && negb (forallb (fun child => view (permissions child)) children));
     download :=
       previousDownload && existsb (fun child => view (permissions child)) children |}.

(** The permissions written on the target. *)
Definition applied (updatedPermissions : UpdatedPermissions) : Permissions :=
  {| view := upd_view updatedPermissions;
     download := upd_download updatedPermissions;
     partialView := Some false |}.

(** What [updateSubItems] writes on a descendant [n], giving [n']. *)
Definition propagatedDown (newView : bool) (n n' : FileOrFolder) : Prop :=
  id n' = id n
  /\ view (permissions n') = newView
  /\ partialView (permissions n') = Some false
  /\ download (permissions n') = download (permissions n) && newView.

(** What [updateItemInTree] writes on an ancestor [p], giving [p']: the
    aggregate of the sub items [p'] now holds. *)
Definition recomputedUp (p p' : FileOrFolder) : Prop :=
  id p' = id p
  /\ exists children,
       subItems p' = Some children
       /\ permissions p' = aggregate children (download (permissions p)).

(** How the node [x] of the tree [universe] becomes [x'] in an edit: through
    [updateItemInTree], untouched (below a target that is a document), or
    through [updateSubItems] below a node with the target id. *)
Definition Touched (targetId : string) (parents : list FileOrFolder)
    (updatedPermissions : UpdatedPermissions) (universe : list FileOrFolder)
    (x x' : FileOrFolder) : Prop :=
  x' = updateItem targetId parents updatedPermissions x
  \/ x' = x
  \/ (x' = updateSubItem (upd_view updatedPermissions) x
      /\ exists y, In y universe /\ id y = targetId /\ In x (descendants y)).

(** The changes an edit merges into [pendingChanges]; [None] when the early
    [return] is taken and nothing is collected. *)
Definition editDiff (st : State) (targetId : string) (newPermissions : list string)
    : option ItemPermission :=
  match findItemAndParents (data st) targetId [] with
  | None => None
  | Some (item, parents) =>
      Some (collectChanges (appliedFlags newPermissions item) item parents)
  end.

(** The state [buildTree] gives a node: a document has the permissions of its
    override; a folder has view = override.view OR any(child.view),
    partialView = any AND NOT all, and the download of its override. *)
Definition builtState (permissions0 : list ViewerGroupAccessControls)
    (n : FileOrFolder) : Prop :=
  match itemType n with
  | DATAROOM_DOCUMENT =>
      permissions n =
      {| view := view (getPermissions permissions0 (id n));
         download := download (getPermissions permissions0 (id n));
         partialView := Some false |}
  | DATAROOM_FOLDER =>
      exists children,
        subItems n = Some children
        /\ permissions n =
           {| view := view (getPermissions permissions0 (id n))
                      || existsb (fun child => view (permissions child)) children;
              download := download (getPermissions permissions0 (id n));
              partialView :=
                Some (existsb (fun child => view (permissions child)) children
                      && negb (forallb (fun child => view (permissions child))
                                       children)) |}
  end.

(** [download ⇒ view] on one entry of the changes. *)
Definition entryDownloadImpliesView (e : PermissionEntry) : bool :=
  implb (entry_download e) (entry_view e).

(** A sequence of edits, applied one after the other. *)
Definition updatePermissionsAll (st : State) (edits : list (string * list string))
    : State :=
  fold_left (fun acc edit => updatePermissions acc (fst edit) (snd edit)) edits st.

(** ** The edit along the path to the target *)

(** The target as [updateItemInTree] rewrites it. *)
Definition editTarget (updatedPermissions : UpdatedPermissions) (x : FileOrFolder)
    : FileOrFolder :=
  {| id := id x; name := name x;
     subItems :=
       match itemType x with
       | DATAROOM_FOLDER =>
           Some (updateSubItems (or_empty (subItems x)) (upd_view updatedPermissions))
       | DATAROOM_DOCUMENT => subItems x
       end;
     permissions := applied updatedPermissions;
     itemType := itemType x; documentId := documentId x |}.

(** An ancestor as [updateItemInTree] rewrites it, given its updated sub
    items. *)
Definition editAncestor (x : FileOrFolder) (updatedSubItems : list FileOrFolder)
    : FileOrFolder :=
  {| id := id x; name := name x;
     subItems := Some updatedSubItems;
     permissions := aggregate updatedSubItems (download (permissions x));
     itemType := itemType x; documentId := documentId x |}.

(** [EditedAlong u ps item items items']: [items'] is [items] with the target
    [item] rewritten, each ancestor of [ps] recomputed from its new sub
    items, and every other item of every level left as it is. *)
Inductive EditedAlong (updatedPermissions : UpdatedPermissions)
    : list FileOrFolder -> FileOrFolder -> list FileOrFolder -> list FileOrFolder
      -> Prop :=
  | edited_here before x after :
      EditedAlong updatedPermissions [] x
        (before ++ x :: after)
        (before ++ editTarget updatedPermissions x :: after)
  | edited_below before x after subs subs' item ps :
      subItems x = Some subs ->
      EditedAlong updatedPermissions ps item subs subs' ->
      EditedAlong updatedPermissions (x :: ps) item
        (before ++ x :: after)
        (before ++ editAncestor x subs' :: after).

(** Folders, and only folders, hold an array of sub items; documents, and
    only documents, carry a document id. *)
Definition wellShaped (n : FileOrFolder) : Prop :=
  match itemType n with
  | DATAROOM_FOLDER => is_Some (subItems n) /\ documentId n = None
  | DATAROOM_DOCUMENT => subItems n = None /\ is_Some (documentId n)
  end.

(** The partial view of a folder says that some and not all of its sub items
    are viewable; a document has partial view false. *)
Definition partialViewConsistent (n : FileOrFolder) : Prop :=
  match itemType n with
  | DATAROOM_FOLDER =>
      partialView (permissions n) =
      Some (existsb (fun child => view (permissions child)) (or_empty (subItems n))
            && negb (forallb (fun child => view (permissions child))
                             (or_empty (subItems n))))
  | DATAROOM_DOCUMENT => partialView (permissions n) = Some false
  end.

(** A node with a viewable sub item is viewable. *)
Definition viewCoversSubItems (n : FileOrFolder) : Prop :=
  existsb (fun child => view (permissions child)) (or_empty (subItems n)) = true ->
  view (permissions n) = true.

(** The entry that records the state of a node. *)
Definition entryOf (n : FileOrFolder) : PermissionEntry :=
  {| entry_view := view (permissions n);
     entry_download := download (permissions n);
     entry_itemType := itemType n |}.

(** The entry [collectSubItemChanges] writes for a sub item. *)
Definition subEntry (updatedPermissions : UpdatedPermissions) (n : FileOrFolder)
    : PermissionEntry :=
  {| entry_view := upd_view updatedPermissions;
     entry_download := download (permissions n) && upd_view updatedPermissions;
     entry_itemType := itemType n |}.

(** ** The levels [buildTree] visits *)

(** The folders of the input, of every level. *)
Definition allFolders (items : list RawItem) : list RawItem :=
  List.filter (fun item => negb (has_document item)) items.

(** [Level items n parentId]: the call [buildTree(items, permissions,
    parentId)] is made at depth [n] of the recursion that starts with
    [parentId = null]. *)
Inductive Level (items : list RawItem) : nat -> option string -> Prop :=
  | level_root : Level items 0 None
  | level_below n parentId folder :
      Level items n parentId ->
      In folder (foldersAt items parentId) ->
      Level items (S n) (Some (raw_id folder)).

(** [Reaches items path parentId]: the folders that the recursion has
    entered, innermost first, when it makes the call for [parentId]. *)
Inductive Reaches (items : list RawItem) : list RawItem -> option string -> Prop :=
  | reaches_root : Reaches items [] None
  | reaches_below path parentId folder :
      Reaches items path parentId ->
      In folder (foldersAt items parentId) ->
      Reaches items (folder :: path) (Some (raw_id folder)).

(** ** The toggles of a row *)

(** The [value] of the toggle group of a row:
    [Object.entries(item.permissions).filter(([_, value]) => value)
       .map(([key, _]) => key)].
    The order of the keys of the object is not tracked by [Permissions]; the
    keys are listed as view, download, partialView. *)
Definition toggleValue (p : Permissions) : list string :=
  (if view p then ["view"%string] else [])
  ++ (if download p then ["download"%string] else [])
  ++ (match partialView p with Some true => ["partialView"%string] | _ => [] end).

(** [handleValueChange]: the new value of the toggles of [item] goes to
    [updatePermissions] with the id of the item. *)
Definition handleValueChange (st : State) (item : FileOrFolder) (value : list string)
    : State :=
  updatePermissions st (id item) value.

(** ** Example inputs *)

Definition exDocument (i : string) (v d : bool) : FileOrFolder :=
  {| id := i; name := i; subItems := None;
     permissions := {| view := v; download := d; partialView := Some false |};
     itemType := DATAROOM_DOCUMENT; documentId := Some i |}.

Definition exFolder (i : string) (v d pv : bool) (subs : list FileOrFolder)
    : FileOrFolder :=
  {| id := i; name := i; subItems := Some subs;
     permissions := {| view := v; download := d; partialView := Some pv |};
     itemType := DATAROOM_FOLDER; documentId := None |}.

(** FolderA with Doc1 and Doc2, nothing viewable. *)
Definition exTree : list FileOrFolder :=
  [exFolder "FolderA" false false false
     [exDocument "Doc1" false false; exDocument "Doc2" false false]].

Definition exState : State := {| data := exTree; pendingChanges := ∅ |}.

(** FolderA with Doc1 viewable and Doc2 not. *)
Definition exStatePartial : State :=
  {| data := [exFolder "FolderA" true false true
                [exDocument "Doc1" true false; exDocument "Doc2" false false]];
     pendingChanges := ∅ |}.

(** Three levels, all viewable: G holds P, P holds D. *)
Definition exStateDeep : State :=
  {| data := [exFolder "G" true false false
                [exFolder "P" true false false [exDocument "D" true false]]];
     pendingChanges := ∅ |}.

(** Two documents at the root; the override of doc2 grants download and not
    view. *)
Definition exRootItems : list RawItem :=
  [ {| raw_id := "doc1"; raw_name := "one"; raw_parentId := None;
       raw_folderId := Null;
       raw_document := Some {| document_id := "d1"; document_name := "one" |};
       raw_documents := None |};
    {| raw_id := "doc2"; raw_name := "two"; raw_parentId := None;
       raw_folderId := Null;
       raw_document := Some {| document_id := "d2"; document_name := "two" |};
       raw_documents := None |} ].

Definition exRootOverrides : list ViewerGroupAccessControls :=
  [ {| itemId := "doc2"; canView := false; canDownload := true |} ].

Definition exRootTree : list FileOrFolder :=
  [ {| id := "doc1"; name := "one"; subItems := None;
       permissions := {| view := false; download := false; partialView := Some false |};
       itemType := DATAROOM_DOCUMENT; documentId := Some "d1" |};
    {| id := "doc2"; name := "two"; subItems := None;
       permissions := {| view := false; download := true; partialView := Some false |};
       itemType := DATAROOM_DOCUMENT; documentId := Some "d2" |} ].

(** A folder A with two documents and a sub folder B. *)
Definition exItems : list RawItem :=
  [ {| raw_id := "A"; raw_name := "A"; raw_parentId := None; raw_folderId := Undefined;
       raw_document := None;
       raw_documents :=
         Some [ {| fd_id := "a1";
                   fd_document := {| document_id := "x1"; document_name := "n1" |} |};
                {| fd_id := "a2";
                   fd_document := {| document_id := "x2"; document_name := "n2" |} |} ] |};
    {| raw_id := "B"; raw_name := "B"; raw_parentId := Some "A";
       raw_folderId := Undefined; raw_document := None; raw_documents := None |} ].

Definition exOverrides : list ViewerGroupAccessControls :=
  [ {| itemId := "a1"; canView := true; canDownload := true |} ].


Definition exEntry : PermissionEntry :=
  {| entry_view := false; entry_download := false;
     entry_itemType := DATAROOM_DOCUMENT |}.

(** One document at the root, with its entry already pending. *)
Definition exStatePending : State :=
  {| data := [exDocument "doc1" false false];
     pendingChanges := {[ "doc1" := exEntry ]} |}.

(** The tree [buildTree] returns for [exItems] and [exOverrides]. *)
Definition exBuiltTree : list FileOrFolder :=
  Eval cbv in or_empty (buildTree 3 exItems exOverrides None).

(** Two edits on the built tree. *)
Definition exEdits : list (string * list string) :=
  [("a1"%string, []); ("B"%string, ["view"%string])].

(** A folder L that is its own parent, and a folder of the root level with
    the same id. *)
Definition exLoop : RawItem :=
  {| raw_id := "L"; raw_name := "loop"; raw_parentId := Some "L"%string;
     raw_folderId := Undefined; raw_document := None; raw_documents := None |}.

Definition exLoopRoot : RawItem :=
  {| raw_id := "L"; raw_name := "root"; raw_parentId := None;
     raw_folderId := Undefined; raw_document := None; raw_documents := None |}.

Definition exLoopItems : list RawItem := [exLoopRoot; exLoop].

(** FolderA of [exStatePartial] and its documents. *)
Definition exFolderA : FileOrFolder :=
  exFolder "FolderA" true false true
    [exDocument "Doc1" true false; exDocument "Doc2" false false].

(** ** Lemmas on the loop [first_result] *)

Lemma first_result_app {A B : Type} (f : A -> option B) (l1 l2 : list A) :
  first_result f (l1 ++ l2) =
  match first_result f l1 with
  | Some r => Some r
  | None => first_result f l2
  end.
Proof.
  induction l1 as [|x l1 IH]; simpl; [reflexivity|].
  destruct (f x); [reflexivity|apply IH].
Qed.

Lemma first_result_none {A B : Type} (f : A -> option B) (l : list A) :
  first_result f l = None <-> Forall (fun x => f x = None) l.
Proof.
  induction l as [|x l IH]; simpl.
  - split; [constructor|reflexivity].
  - destruct (f x) eqn:E.
    + split; [discriminate|]. intros H. inversion H; congruence.
    + rewrite IH. split; [intros H; constructor; assumption|].
      intros H; inversion H; assumption.
Qed.

Lemma first_result_some {A B : Type} (f : A -> option B) (l : list A) (r : B) :
  first_result f l = Some r ->
  exists before x after,
    l = before ++ x :: after /\ Forall (fun y => f y = None) before /\ f x = Some r.
Proof.
  induction l as [|x l IH]; simpl; [discriminate|].
  destruct (f x) eqn:E.
  - intros [= <-]. exists [], x, l. repeat split; [constructor|assumption].
  - intros H. destruct (IH H) as (before & y & after & -> & Hb & Hy).
    exists (x :: before), y, after. repeat split; [constructor|]; assumption.
Qed.

Lemma first_result_option_map {A B C : Type} (f : A -> option B) (g : B -> C)
    (l : list A) :
  first_result (fun x => option_map g (f x)) l = option_map g (first_result f l).
Proof.
  induction l as [|x l IH]; simpl; [reflexivity|].
  destruct (f x); simpl; [reflexivity|apply IH].
Qed.

Lemma first_result_ext_Forall {A B : Type} (f g : A -> option B) (l : list A) :
  Forall (fun x => f x = g x) l -> first_result f l = first_result g l.
Proof.
  induction 1 as [|x l Hx _ IH]; simpl; [reflexivity|].
  rewrite Hx, IH. reflexivity.
Qed.

(** ** Lemmas on [findItemAndParents] *)

Lemma findInItem_unfold targetId item acc :
  findInItem targetId item acc =
  if String.eqb (id item) targetId then Some (item, acc)
  else match subItems item with
       | Some subs => findItemAndParents subs targetId (acc ++ [item])
       | None => None
       end.
Proof. destruct item as [i n [subs|] p t d]; reflexivity. Qed.

Lemma nodesOf_unfold item :
  nodesOf item = item :: descendants item.
Proof. destruct item as [i n [subs|] p t d]; reflexivity. Qed.

Lemma nodes_app l1 l2 : nodes (l1 ++ l2) = nodes l1 ++ nodes l2.
Proof. apply flat_map_app. Qed.

Lemma nodes_cons x l : nodes (x :: l) = x :: descendants x ++ nodes l.
Proof. unfold nodes; simpl. rewrite nodesOf_unfold. reflexivity. Qed.

(** The accumulated [parents] are only a prefix of the result. *)
Lemma findInItem_prefixed targetId item :
  forall acc,
    findInItem targetId item acc =
    option_map (prefixed acc) (findInItem targetId item []).
Proof.
  induction item as [i n subs p t d IH] using FileOrFolder_nested_ind.
  intros acc. rewrite !findInItem_unfold. simpl.
  destruct (String.eqb i targetId).
  - unfold prefixed; simpl. rewrite app_nil_r. reflexivity.
  - destruct subs as [l|]; [|reflexivity]. simpl in IH.
    unfold findItemAndParents.
    rewrite (first_result_ext_Forall _
               (fun sub => option_map (prefixed (acc ++ [mkFileOrFolder i n (Some l) p t d]))
                             (findInItem targetId sub []))).
    2:{ eapply List.Forall_impl; [|exact IH]. intros x Hx; apply Hx. }
    rewrite (first_result_ext_Forall
               (fun sub => findInItem targetId sub [mkFileOrFolder i n (Some l) p t d])
               (fun sub => option_map (prefixed [mkFileOrFolder i n (Some l) p t d])
                             (findInItem targetId sub []))).
    2:{ eapply List.Forall_impl; [|exact IH]. intros x Hx; apply Hx. }
    rewrite !first_result_option_map.
    destruct (first_result _ l) as [[it ps]|]; simpl; [|reflexivity].
    unfold prefixed; simpl. rewrite <- app_assoc. reflexivity.
Qed.

Lemma findItemAndParents_prefixed items targetId acc :
  findItemAndParents items targetId acc =
  option_map (prefixed acc) (findItemAndParents items targetId []).
Proof.
  unfold findItemAndParents.
  rewrite <- first_result_option_map.
  apply first_result_ext_Forall, List.Forall_forall.
  intros x _. apply findInItem_prefixed.
Qed.

(** One step of the search, with the parents counted from the item. *)
Lemma findInItem_step targetId item :
  findInItem targetId item [] =
  if String.eqb (id item) targetId then Some (item, [])
  else match subItems item with
       | Some subs =>
           option_map (prefixed [item]) (findItemAndParents subs targetId [])
       | None => None
       end.
Proof.
  rewrite findInItem_unfold.
  destruct (String.eqb (id item) targetId); [reflexivity|].
  destruct (subItems item); [|reflexivity].
  apply findItemAndParents_prefixed.
Qed.

(** The search fails exactly when no node has the id. *)
Lemma findInItem_none targetId item :
  findInItem targetId item [] = None <-> ~ In targetId (List.map id (nodesOf item)).
Proof.
  induction item as [i n subs p t d IH] using FileOrFolder_nested_ind.
  rewrite findInItem_step, nodesOf_unfold. simpl.
  destruct (String.eqb i targetId) eqn:E.
  - apply String.eqb_eq in E. split; [discriminate|]. intros H; exfalso; apply H; auto.
  - apply String.eqb_neq in E.
    assert (Hl : forall l, Forall (fun x => findInItem targetId x [] = None <->
                                 ~ In targetId (List.map id (nodesOf x))) l ->
                 findItemAndParents l targetId [] = None <->
                 ~ In targetId (List.map id (nodes l))).
    { clear. intros l Hl. unfold findItemAndParents. rewrite first_result_none.
      induction Hl as [|x l Hx _ IHl]; simpl.
      - split; [intros _ []|constructor].
      - rewrite map_app, in_app_iff. split.
        + intros H; inversion H; subst. intros [H1|H1]; [apply Hx in H1; auto|].
          apply IHl in H1; auto.
        + intros H. constructor; [apply Hx; tauto|apply IHl; tauto]. }
    destruct subs as [l|]; simpl in *.
    + unfold descendants; simpl.
      destruct (findItemAndParents l targetId []) eqn:F; simpl.
      * split; [discriminate|]. intros H. exfalso.
        assert (F' : findItemAndParents l targetId [] <> None) by congruence.
        apply F'. apply Hl; [exact IH|]. tauto.
      * split; [|reflexivity]. intros _ [H|H]; [congruence|].
        apply (proj1 (Hl l IH)) in H; auto.
    + unfold descendants; simpl. split; [|reflexivity]. intros _ [H|[]]. congruence.
Qed.

Lemma findItemAndParents_none items targetId :
  findItemAndParents items targetId [] = None <->
  ~ In targetId (List.map id (nodes items)).
Proof.
  unfold findItemAndParents. rewrite first_result_none.
  induction items as [|x l IHl]; simpl.
  - split; [intros _ []|constructor].
  - rewrite map_app, in_app_iff. split.
    + intros H; inversion H; subst. intros [H1|H1].
      * apply (proj1 (findInItem_none targetId x)) in H1; auto.
      * apply IHl in H1; auto.
    + intros H. constructor; [apply findInItem_none; tauto|apply IHl; tauto].
Qed.

(** [findItemAndParents] returns the first node with the id, and its
    ancestors. *)
Lemma FoundAt_complete targetId items item ps :
  FoundAt targetId items item ps ->
  findItemAndParents items targetId [] = Some (item, ps).
Proof.
  induction 1 as [before x after Hb Hx|before x after subs item ps Hb Hx Hs _ IH];
    unfold findItemAndParents; rewrite first_result_app;
    apply findItemAndParents_none in Hb; unfold findItemAndParents in Hb;
    rewrite Hb; simpl; rewrite findInItem_step.
  - apply String.eqb_eq in Hx. rewrite Hx. reflexivity.
  - apply String.eqb_neq in Hx. rewrite Hx, Hs, IH. reflexivity.
Qed.

Lemma FoundAt_singleton targetId x item ps before after :
  FoundAt targetId [x] item ps ->
  ~ In targetId (List.map id (nodes before)) ->
  FoundAt targetId (before ++ x :: after) item ps.
Proof.
  intros H Hb. remember [x] as l eqn:El.
  destruct H as [b y a Hn Hy|b y a subs it qs Hn Hy Hs Hf].
  - destruct b as [|? [|? ?]]; simpl in El; simplify_eq. apply found_here; auto.
  - destruct b as [|? [|? ?]]; simpl in El; simplify_eq. eapply found_below; eauto.
Qed.

Lemma FoundAt_sound_items targetId (l : list FileOrFolder) :
  Forall (fun x => forall item ps,
            findInItem targetId x [] = Some (item, ps) ->
            FoundAt targetId [x] item ps) l ->
  forall item ps,
    findItemAndParents l targetId [] = Some (item, ps) ->
    FoundAt targetId l item ps.
Proof.
  intros Hl item ps H. unfold findItemAndParents in H.
  apply first_result_some in H as (before & x & after & -> & Hb & Hx).
  apply first_result_none in Hb. apply findItemAndParents_none in Hb.
  rewrite List.Forall_forall in Hl.
  specialize (Hl x (in_elt x before after) item ps Hx).
  apply FoundAt_singleton; assumption.
Qed.

Lemma FoundAt_sound_item targetId x :
  forall item ps,
    findInItem targetId x [] = Some (item, ps) ->
    FoundAt targetId [x] item ps.
Proof.
  induction x as [i n subs p t d IH] using FileOrFolder_nested_ind.
  intros item ps. rewrite findInItem_step. simpl.
  destruct (String.eqb i targetId) eqn:E.
  - intros [= <- <-]. apply String.eqb_eq in E.
    apply (found_here targetId [] _ []); [intros []|exact E].
  - apply String.eqb_neq in E. destruct subs as [l|]; [|discriminate].
    simpl in IH.
    destruct (findItemAndParents l targetId []) as [[it qs]|] eqn:F; [|discriminate].
    simpl. unfold prefixed; simpl. intros [= <- <-].
    eapply (found_below targetId [] _ []); [intros []|exact E|reflexivity|].
    apply FoundAt_sound_items; assumption.
Qed.

Lemma FoundAt_sound targetId items item ps :
  findItemAndParents items targetId [] = Some (item, ps) ->
  FoundAt targetId items item ps.
Proof.
  apply FoundAt_sound_items, List.Forall_forall.
  intros x _. apply FoundAt_sound_item.
Qed.

Lemma FoundAt_iff targetId items item ps :
  findItemAndParents items targetId [] = Some (item, ps) <->
  FoundAt targetId items item ps.
Proof. split; [apply FoundAt_sound|apply FoundAt_complete]. Qed.

(** Facts on a found item. *)
Lemma FoundAt_id targetId items item ps :
  FoundAt targetId items item ps -> id item = targetId.
Proof. induction 1; assumption. Qed.

Lemma FoundAt_parents_id targetId items item ps :
  FoundAt targetId items item ps -> Forall (fun p => id p <> targetId) ps.
Proof. induction 1; constructor; assumption. Qed.

Lemma FoundAt_hd targetId items item ps :
  FoundAt targetId items item ps -> In (hd item ps) items.
Proof. induction 1; simpl; apply in_elt. Qed.

Lemma FoundAt_leadsTo targetId items item ps :
  FoundAt targetId items item ps -> leadsTo ps item.
Proof.
  induction 1 as [|before x after subs item ps _ _ Hs Hf IH]; simpl; [exact I|].
  split; [|exact IH]. rewrite Hs. simpl. eapply FoundAt_hd; eassumption.
Qed.

Lemma In_nodes_sub x (l : list FileOrFolder) y :
  In x l -> In y (nodesOf x) -> In y (nodes l).
Proof. intros Hx Hy. unfold nodes. apply in_flat_map. exists x; auto. Qed.

Lemma In_nodes_self x (l : list FileOrFolder) : In x l -> In x (nodes l).
Proof.
  intros Hx. apply (In_nodes_sub x l x Hx). rewrite nodesOf_unfold. left; reflexivity.
Qed.

Lemma In_nodes_descendants x (l : list FileOrFolder) y :
  In x (nodes l) -> In y (descendants x) -> In y (nodes l).
Proof.
  revert x y. unfold nodes at 1 2.
  assert (H : forall z, forall x y, In x (nodesOf z) -> In y (descendants x) ->
                                    In y (nodesOf z)).
  { induction z as [i n subs p t d IH] using FileOrFolder_nested_ind.
    intros x y. rewrite nodesOf_unfold. intros [<-|Hx] Hy.
    - right; exact Hy.
    - right. unfold descendants in *; simpl in *. unfold nodes in Hx |- *.
      apply in_flat_map in Hx as (s & Hs & Hx). apply in_flat_map.
      exists s. split; [exact Hs|]. rewrite List.Forall_forall in IH.
      eapply IH; eassumption. }
  intros x y Hx Hy. apply in_flat_map in Hx as (z & Hz & Hx).
  apply in_flat_map. exists z. split; [exact Hz|]. eapply H; eassumption.
Qed.

Lemma FoundAt_In targetId items item ps :
  FoundAt targetId items item ps ->
  In item (nodes items) /\ Forall (fun p => In p (nodes items)) ps.
Proof.
  induction 1 as [before x after|before x after subs item ps _ _ Hs _ [IH1 IH2]].
  - split; [|constructor]. apply In_nodes_self, in_elt.
  - assert (Hx : In x (nodes (before ++ x :: after))) by apply In_nodes_self, in_elt.
    assert (Hsub : forall y, In y (nodes subs) -> In y (nodes (before ++ x :: after))).
    { intros y Hy. eapply In_nodes_descendants; [exact Hx|].
      unfold descendants. rewrite Hs. exact Hy. }
    split; [auto|]. constructor; [exact Hx|].
    eapply List.Forall_impl; [|exact IH2]. auto.
Qed.

(** ** Lemmas on [updateSubItems] *)

Lemma updateSubItem_unfold viewState item :
  updateSubItem viewState item =
  {| id := id item;
     name := name item;
     subItems := option_map (fun l => updateSubItems l viewState) (subItems item);
     permissions := {| view := viewState;
                       download := download (permissions item) && viewState;
                       partialView := Some false |};
     itemType := itemType item;
     documentId := documentId item |}.
Proof. destruct item; reflexivity. Qed.

Lemma descendants_updateSubItem viewState item :
  descendants (updateSubItem viewState item) =
  nodes (updateSubItems (or_empty (subItems item)) viewState).
Proof. destruct item as [i n [l|] p t d]; reflexivity. Qed.

Lemma nodes_updateSubItems viewState (l : list FileOrFolder) :
  nodes (updateSubItems l viewState) = List.map (updateSubItem viewState) (nodes l).
Proof.
  assert (H : forall x, nodesOf (updateSubItem viewState x) =
                        List.map (updateSubItem viewState) (nodesOf x)).
  { induction x as [i n subs p t d IH] using FileOrFolder_nested_ind.
    rewrite (nodesOf_unfold (updateSubItem _ _)), descendants_updateSubItem.
    rewrite nodesOf_unfold. simpl. f_equal.
    unfold descendants; simpl. induction IH as [|y ks Hy _ IHl]; [reflexivity|].
    unfold nodes in *; simpl. rewrite map_app, Hy. f_equal. exact IHl. }
  induction l as [|x l IHl]; [reflexivity|].
  unfold nodes in *; simpl. rewrite map_app, H. f_equal. exact IHl.
Qed.

Lemma skeleton_unfold item :
  skeleton item =
  skel (id item) (name item) (itemType item) (documentId item)
       (List.map skeleton (or_empty (subItems item))).
Proof. destruct item as [i n [l|] p t d]; reflexivity. Qed.

Lemma map_ext_Forall {A B : Type} (f g : A -> B) (l : list A) :
  Forall (fun x => f x = g x) l -> List.map f l = List.map g l.
Proof. induction 1 as [|x l Hx _ IH]; simpl; [reflexivity|]. rewrite Hx, IH; reflexivity. Qed.

Lemma skeleton_updateSubItem viewState item :
  skeleton (updateSubItem viewState item) = skeleton item.
Proof.
  induction item as [i n subs p t d IH] using FileOrFolder_nested_ind.
  rewrite (skeleton_unfold (updateSubItem _ _)), updateSubItem_unfold, skeleton_unfold.
  simpl. f_equal. destruct subs as [l|]; [|reflexivity]. simpl in *.
  unfold updateSubItems. rewrite List.map_map. apply map_ext_Forall, IH.
Qed.

Lemma updateSubItem_idempotent viewState item :
  updateSubItem viewState (updateSubItem viewState item) = updateSubItem viewState item.
Proof.
  induction item as [i n subs p t d IH] using FileOrFolder_nested_ind.
  rewrite (updateSubItem_unfold _ (updateSubItem _ _)).
  rewrite updateSubItem_unfold. simpl. f_equal.
  - destruct subs as [l|]; [|reflexivity]. simpl in *. f_equal.
    unfold updateSubItems. rewrite List.map_map. apply map_ext_Forall, IH.
  - f_equal. destruct (download p), viewState; reflexivity.
Qed.

(** ** Lemmas on [updateItemInTree] *)

Section UpdateLemmas.
Variable targetId : string.
Variable parents : list FileOrFolder.
Variable updatedPermissions : UpdatedPermissions.

Local Abbreviation updateItem' := (updateItem targetId parents updatedPermissions).
Local Abbreviation updateItemInTree' :=
  (updateItemInTree targetId parents updatedPermissions).

Lemma updateItem_target_folder x :
  id x = targetId -> itemType x = DATAROOM_FOLDER ->
  updateItem' x =
  {| id := id x; name := name x;
     subItems := Some (updateSubItems (or_empty (subItems x))
                         (upd_view updatedPermissions));
     permissions := applied updatedPermissions;
     itemType := DATAROOM_FOLDER; documentId := documentId x |}.
Proof.
  destruct x as [i n subs p t d]; simpl. intros -> ->.
  rewrite String.eqb_refl. reflexivity.
Qed.

Lemma updateItem_target_document x :
  id x = targetId -> itemType x = DATAROOM_DOCUMENT ->
  updateItem' x =
  {| id := id x; name := name x; subItems := subItems x;
     permissions := applied updatedPermissions;
     itemType := DATAROOM_DOCUMENT; documentId := documentId x |}.
Proof.
  destruct x as [i n subs p t d]; simpl. intros -> ->.
  rewrite String.eqb_refl. reflexivity.
Qed.

Lemma updateItem_parent x :
  id x <> targetId -> isParent parents x = true ->
  updateItem' x =
  {| id := id x; name := name x;
     subItems := Some (updateItemInTree' (or_empty (subItems x)));
     permissions :=
       aggregate (updateItemInTree' (or_empty (subItems x)))
                 (download (permissions x));
     itemType := itemType x; documentId := documentId x |}.
Proof.
  destruct x as [i n subs p t d]; simpl. intros Hi Hp.
  apply String.eqb_neq in Hi. rewrite Hi.
  unfold isParent in *; simpl in *. rewrite Hp.
  destruct subs; reflexivity.
Qed.

Lemma updateItem_other x :
  id x <> targetId -> isParent parents x = false ->
  updateItem' x =
  {| id := id x; name := name x;
     subItems := option_map updateItemInTree' (subItems x);
     permissions := permissions x;
     itemType := itemType x; documentId := documentId x |}.
Proof.
  destruct x as [i n subs p t d]; simpl. intros Hi Hp.
  apply String.eqb_neq in Hi. rewrite Hi.
  unfold isParent in *; simpl in *. rewrite Hp.
  destruct subs; reflexivity.
Qed.

(** The four ways [updateItemInTree] treats an item. *)
Lemma updateItem_cases x (P : FileOrFolder -> Prop) :
  (id x = targetId -> itemType x = DATAROOM_FOLDER ->
   P {| id := id x; name := name x;
        subItems := Some (updateSubItems (or_empty (subItems x))
                            (upd_view updatedPermissions));
        permissions := applied updatedPermissions;
        itemType := DATAROOM_FOLDER; documentId := documentId x |}) ->
  (id x = targetId -> itemType x = DATAROOM_DOCUMENT ->
   P {| id := id x; name := name x; subItems := subItems x;
        permissions := applied updatedPermissions;
        itemType := DATAROOM_DOCUMENT; documentId := documentId x |}) ->
  (id x <> targetId -> isParent parents x = true ->
   P {| id := id x; name := name x;
        subItems := Some (updateItemInTree' (or_empty (subItems x)));
        permissions :=
          aggregate (updateItemInTree' (or_empty (subItems x)))
                    (download (permissions x));
        itemType := itemType x; documentId := documentId x |}) ->
  (id x <> targetId -> isParent parents x = false ->
   P {| id := id x; name := name x;
        subItems := option_map updateItemInTree' (subItems x);
        permissions := permissions x;
        itemType := itemType x; documentId := documentId x |}) ->
  P (updateItem' x).
Proof.
  intros H1 H2 H3 H4.
  destruct (String.eqb_spec (id x) targetId) as [E|E].
  - destruct (itemType x) eqn:T.
    + rewrite updateItem_target_document; auto.
    + rewrite updateItem_target_folder; auto.
  - destruct (isParent parents x) eqn:Hp.
    + rewrite updateItem_parent; auto.
    + rewrite updateItem_other; auto.
Qed.

Lemma id_updateItem x : id (updateItem' x) = id x.
Proof. apply updateItem_cases; reflexivity. Qed.

Lemma skeleton_updateItem x : skeleton (updateItem' x) = skeleton x.
Proof.
  induction x as [i n subs p t d IH] using FileOrFolder_nested_ind.
  rewrite (skeleton_unfold (mkFileOrFolder i n subs p t d)).
  apply updateItem_cases; intros E1 E2; rewrite skeleton_unfold; simpl in *;
    try rewrite E2; f_equal.
  - unfold updateSubItems. rewrite List.map_map.
    apply map_ext_Forall, List.Forall_forall. intros; apply skeleton_updateSubItem.
  - unfold updateItemInTree. rewrite List.map_map. apply map_ext_Forall, IH.
  - destruct subs as [l|]; [|reflexivity]. simpl in *.
    unfold updateItemInTree. rewrite List.map_map. apply map_ext_Forall, IH.
Qed.
End UpdateLemmas.

(** ** Node by node: what an edit does to each node of the tree *)

Lemma Forall2_map_self {A : Type} (R : A -> A -> Prop) (h : A -> A) (l : list A) :
  (forall x, In x l -> R x (h x)) -> Forall2 R l (List.map h l).
Proof.
  induction l as [|x l IH]; simpl; intros H; constructor; auto.
Qed.

Lemma Forall2_same {A : Type} (R : A -> A -> Prop) (l : list A) :
  (forall x, In x l -> R x x) -> Forall2 R l l.
Proof.
  induction l as [|x l IH]; simpl; intros H; constructor; auto.
Qed.

Lemma Forall2_flat_map_map {A B : Type} (R : B -> B -> Prop) (f : A -> list B)
    (h : A -> A) (l : list A) :
  Forall (fun x => Forall2 R (f x) (f (h x))) l ->
  Forall2 R (flat_map f l) (flat_map f (List.map h l)).
Proof.
  induction 1 as [|x l Hx _ IH]; simpl; [constructor|].
  apply Forall2_app; assumption.
Qed.

Lemma Forall2_weaken {A : Type} (R Q : A -> A -> Prop) (l k : list A) :
  (forall x y, R x y -> Q x y) -> Forall2 R l k -> Forall2 Q l k.
Proof. intros H; induction 1; constructor; auto. Qed.

Section NodeByNode.
Variable targetId : string.
Variable parents : list FileOrFolder.
Variable updatedPermissions : UpdatedPermissions.

Local Abbreviation updateItem' := (updateItem targetId parents updatedPermissions).
Local Abbreviation updateItemInTree' :=
  (updateItemInTree targetId parents updatedPermissions).
Local Abbreviation Touched' := (Touched targetId parents updatedPermissions).

Lemma Touched_mono (u1 u2 : list FileOrFolder) x x' :
  (forall y, In y u1 -> In y u2) -> Touched' u1 x x' -> Touched' u2 x x'.
Proof.
  intros Hu [H|[H|(H & y & Hy & Hi & Hd)]]; [left|right; left|right; right]; auto.
  split; [exact H|]. exists y. auto.
Qed.

Lemma descendants_updateItem x :
  descendants (updateItem' x) =
  if String.eqb (id x) targetId then
    match itemType x with
    | DATAROOM_FOLDER =>
        List.map (updateSubItem (upd_view updatedPermissions)) (descendants x)
    | DATAROOM_DOCUMENT => descendants x
    end
  else nodes (updateItemInTree' (or_empty (subItems x))).
Proof.
  apply updateItem_cases; intros E1 E2; unfold descendants; simpl.
  - apply String.eqb_eq in E1. rewrite E1, E2. apply nodes_updateSubItems.
  - apply String.eqb_eq in E1. rewrite E1, E2. reflexivity.
  - apply String.eqb_neq in E1. rewrite E1. reflexivity.
  - apply String.eqb_neq in E1. rewrite E1. destruct (subItems x); reflexivity.
Qed.

Lemma nodesOf_updateItem x :
  Forall2 (Touched' (nodesOf x)) (nodesOf x) (nodesOf (updateItem' x)).
Proof.
  induction x as [i n subs p t d IH] using FileOrFolder_nested_ind.
  set (x := mkFileOrFolder i n subs p t d) in *.
  rewrite (nodesOf_unfold (updateItem' x)), descendants_updateItem.
  rewrite (nodesOf_unfold x) at 2.
  constructor; [left; reflexivity|].
  destruct (String.eqb_spec (id x) targetId) as [E|E].
  - destruct (itemType x).
    + apply Forall2_same. intros y _. right; left; reflexivity.
    + apply Forall2_map_self. intros y Hy. right; right.
      split; [reflexivity|]. exists x. split; [|auto].
      rewrite nodesOf_unfold. left; reflexivity.
  - unfold descendants, nodes, updateItemInTree.
    apply Forall2_flat_map_map.
    assert (Hsub : forall s, In s (or_empty (subItems x)) ->
                             forall y, In y (nodesOf s) -> In y (nodesOf x)).
    { intros s Hs y Hy. rewrite (nodesOf_unfold x). right.
      eapply In_nodes_sub; eassumption. }
    revert Hsub. simpl. induction IH as [|s l Hs _ IHl]; intros Hsub; constructor.
    + eapply Forall2_weaken; [|exact Hs]. intros a b.
      apply Touched_mono. apply Hsub. left; reflexivity.
    + apply IHl. intros s' Hs'. apply Hsub. right; exact Hs'.
Qed.

Lemma nodes_updateItemInTree (items : list FileOrFolder) :
  Forall2 (Touched' (nodes items)) (nodes items) (nodes (updateItemInTree' items)).
Proof.
  unfold nodes at 2 3, updateItemInTree. apply Forall2_flat_map_map.
  apply List.Forall_forall. intros x Hx.
  eapply Forall2_weaken; [|apply nodesOf_updateItem].
  intros a b. apply Touched_mono. intros y. apply In_nodes_sub. exact Hx.
Qed.

(** The ids of the nodes, in the order of the walk, are those before the
    edit. *)
Lemma Touched_id universe x x' : Touched' universe x x' -> id x' = id x.
Proof.
  intros [->|[->|(-> & _)]]; [apply id_updateItem|reflexivity|].
  rewrite updateSubItem_unfold. reflexivity.
Qed.

Lemma ids_updateItemInTree (items : list FileOrFolder) :
  List.map id (nodes (updateItemInTree' items)) = List.map id (nodes items).
Proof.
  generalize (nodes_updateItemInTree items).
  generalize (nodes items) at 1 as u.
  intros u H. induction H as [|x x' l l' Hx _ IH]; simpl; [reflexivity|].
  rewrite IH. f_equal. eapply Touched_id; eassumption.
Qed.
End NodeByNode.

(** ** The found item after the edit *)

Lemma isParent_self (ps : list FileOrFolder) p : In p ps -> isParent ps p = true.
Proof.
  intros H. unfold isParent. apply existsb_exists.
  exists p. split; [exact H|apply String.eqb_refl].
Qed.

Lemma isParent_In_ids (ps : list FileOrFolder) x :
  isParent ps x = true -> In (id x) (List.map id ps).
Proof.
  unfold isParent. intros H. apply existsb_exists in H as (p & Hp & E).
  apply String.eqb_eq in E. rewrite <- E. apply in_map. exact Hp.
Qed.

Lemma isParent_same_ids (ps1 ps2 : list FileOrFolder) x :
  List.map id ps1 = List.map id ps2 -> isParent ps1 x = isParent ps2 x.
Proof.
  unfold isParent. revert ps2.
  induction ps1 as [|p ps1 IH]; intros [|q ps2]; simpl; try discriminate; [reflexivity|].
  intros [= -> H]. f_equal. apply IH, H.
Qed.

Section FoundAfter.
Variable targetId : string.
Variable parents : list FileOrFolder.
Variable updatedPermissions : UpdatedPermissions.

Local Abbreviation updateItem' := (updateItem targetId parents updatedPermissions).
Local Abbreviation updateItemInTree' :=
  (updateItemInTree targetId parents updatedPermissions).

Lemma FoundAt_update items item ps :
  FoundAt targetId items item ps ->
  Forall (fun p => isParent parents p = true) ps ->
  FoundAt targetId (updateItemInTree' items) (updateItem' item)
          (List.map updateItem' ps).
Proof.
  induction 1 as [before x after Hb Hx|before x after subs item ps Hb Hx Hs _ IH];
    intros Hp; unfold updateItemInTree; rewrite map_app; simpl.
  - apply found_here.
    + fold (updateItemInTree' before). rewrite ids_updateItemInTree. exact Hb.
    + rewrite id_updateItem. exact Hx.
  - inversion Hp as [|? ? Hpx Hps]; subst.
    apply found_below with (subs := updateItemInTree' subs).
    + fold (updateItemInTree' before). rewrite ids_updateItemInTree. exact Hb.
    + rewrite id_updateItem. exact Hx.
    + rewrite updateItem_parent by assumption. simpl. rewrite Hs. reflexivity.
    + apply IH, Hps.
Qed.

(** The update reads [parents] only through their ids. *)
Lemma updateItem_same_ids (ps2 : list FileOrFolder) x :
  List.map id parents = List.map id ps2 ->
  updateItem' x = updateItem targetId ps2 updatedPermissions x.
Proof.
  intros Hids.
  induction x as [i n subs p t d IH] using FileOrFolder_nested_ind.
  set (x := mkFileOrFolder i n subs p t d).
  assert (Hl : updateItemInTree' (or_empty subs) =
               updateItemInTree targetId ps2 updatedPermissions (or_empty subs)).
  { apply map_ext_Forall, IH. }
  destruct (String.eqb_spec (id x) targetId) as [E|E].
  - destruct (itemType x) eqn:T.
    + rewrite !updateItem_target_document by assumption. reflexivity.
    + rewrite !updateItem_target_folder by assumption. reflexivity.
  - destruct (isParent parents x) eqn:Hp.
    + rewrite !updateItem_parent
        by (try rewrite <- (isParent_same_ids parents ps2 x Hids); assumption).
      subst x; simpl in *. rewrite Hl. reflexivity.
    + rewrite !updateItem_other
        by (try rewrite <- (isParent_same_ids parents ps2 x Hids); assumption).
      subst x; simpl in *. destruct subs as [l|]; simpl in *; [|reflexivity].
      rewrite Hl. reflexivity.
Qed.

Lemma aggregate_again (children : list FileOrFolder) (d : bool) :
  aggregate children
    (d && existsb (fun child => view (permissions child)) children) =
  aggregate children d.
Proof.
  unfold aggregate; simpl. f_equal.
  destruct d, (existsb _ children); reflexivity.
Qed.

(** Running the update a second time changes nothing. *)
Lemma updateItem_idempotent x : updateItem' (updateItem' x) = updateItem' x.
Proof.
  induction x as [i n subs p t d IH] using FileOrFolder_nested_ind.
  set (x := mkFileOrFolder i n subs p t d).
  assert (Hl : updateItemInTree' (updateItemInTree' (or_empty subs)) =
               updateItemInTree' (or_empty subs)).
  { unfold updateItemInTree. rewrite List.map_map. apply map_ext_Forall, IH. }
  destruct (String.eqb_spec (id x) targetId) as [E|E].
  - destruct (itemType x) eqn:T.
    + rewrite (updateItem_target_document _ _ _ x) by assumption.
      rewrite updateItem_target_document by (simpl; first [assumption|reflexivity]). reflexivity.
    + rewrite (updateItem_target_folder _ _ _ x) by assumption.
      rewrite updateItem_target_folder by (simpl; first [assumption|reflexivity]). simpl.
      do 2 f_equal. unfold updateSubItems. rewrite List.map_map.
      apply map_ext_Forall, List.Forall_forall.
      intros y _. apply updateSubItem_idempotent.
  - destruct (isParent parents x) eqn:Hp.
    + rewrite (updateItem_parent _ _ _ x) by assumption.
      rewrite updateItem_parent by (simpl; first [assumption|reflexivity]). simpl.
      rewrite Hl, aggregate_again. reflexivity.
    + rewrite (updateItem_other _ _ _ x) by assumption.
      rewrite updateItem_other by (simpl; first [assumption|reflexivity]). simpl.
      destruct subs as [l|]; simpl in *; [|reflexivity]. rewrite Hl. reflexivity.
Qed.

Lemma updateItemInTree_idempotent (items : list FileOrFolder) :
  updateItemInTree' (updateItemInTree' items) = updateItemInTree' items.
Proof.
  unfold updateItemInTree. rewrite List.map_map.
  apply map_ext_Forall, List.Forall_forall. intros x _. apply updateItem_idempotent.
Qed.
End FoundAfter.

(** ** The edit as a whole *)

Lemma updatePermissions_found st targetId newPermissions item ps :
  findItemAndParents (data st) targetId [] = Some (item, ps) ->
  updatePermissions st targetId newPermissions =
  {| data := updateItemInTree targetId ps (appliedFlags newPermissions item) (data st);
     pendingChanges :=
       collectChanges (appliedFlags newPermissions item) item ps ∪ pendingChanges st |}.
Proof. unfold updatePermissions. intros ->. reflexivity. Qed.

Lemma updatePermissions_not_found st targetId newPermissions :
  findItemAndParents (data st) targetId [] = None ->
  updatePermissions st targetId newPermissions = st.
Proof. unfold updatePermissions. intros ->. reflexivity. Qed.

Lemma Forall_isParent_self (ps : list FileOrFolder) :
  Forall (fun p => isParent ps p = true) ps.
Proof. apply List.Forall_forall. intros p. apply isParent_self. Qed.

(** After the edit the search finds the updated item under the updated
    ancestors. *)
Lemma found_after_edit st targetId newPermissions item ps :
  findItemAndParents (data st) targetId [] = Some (item, ps) ->
  findItemAndParents (data (updatePermissions st targetId newPermissions)) targetId [] =
  Some (updateItem targetId ps (appliedFlags newPermissions item) item,
        List.map (updateItem targetId ps (appliedFlags newPermissions item)) ps).
Proof.
  intros H. rewrite (updatePermissions_found _ _ _ _ _ H). simpl.
  apply FoundAt_iff. apply FoundAt_update; [apply FoundAt_iff, H|].
  apply Forall_isParent_self.
Qed.

Lemma permissions_updated_target targetId ps u item :
  id item = targetId ->
  permissions (updateItem targetId ps u item) = applied u.
Proof.
  intros E. apply updateItem_cases; intros E1 E2; try reflexivity; contradiction.
Qed.

Lemma specialCases_invariant u d :
  implb (upd_download (specialCases u d)) (upd_view (specialCases u d)) = true.
Proof. destruct u as [[|] [|]], d; reflexivity. Qed.

Lemma specialCases_again u d :
  implb (upd_download u) (upd_view u) = true ->
  specialCases u (upd_download (specialCases u d)) = specialCases u d.
Proof. destruct u as [[|] [|]], d; simpl; intros H; try reflexivity; discriminate. Qed.

(** The special cases, as a table on the requested pair and the previous
    download flag of the target. *)
Lemma specialCases_table (requestedView requestedDownload previousDownload : bool) :
  specialCases {| upd_view := requestedView; upd_download := requestedDownload |}
               previousDownload =
  if negb requestedView && previousDownload then
    {| upd_view := false; upd_download := false |}
  else if requestedDownload && negb requestedView then
    {| upd_view := true; upd_download := true |}
  else {| upd_view := requestedView; upd_download := requestedDownload |}.
Proof. destruct requestedView, requestedDownload, previousDownload; reflexivity. Qed.

(** C4: the flags written on the target are the requested ones after the two
    special cases: a request without view on a target whose download was on
    gets download off; otherwise a request with download and without view
    gets view on; otherwise the request is applied as it is. *)
Theorem special_cases_applied_to_target st targetId newPermissions item ps :
  findItemAndParents (data st) targetId [] = Some (item, ps) ->
  exists item' ps',
    findItemAndParents (data (updatePermissions st targetId newPermissions))
                       targetId [] = Some (item', ps')
    /\ permissions item' = applied (appliedFlags newPermissions item)
    /\ appliedFlags newPermissions item =
       (if negb (includes newPermissions "view") && download (permissions item) then
          {| upd_view := false; upd_download := false |}
        else if includes newPermissions "download"
                && negb (includes newPermissions "view") then
          {| upd_view := true; upd_download := true |}
        else {| upd_view := includes newPermissions "view";
                upd_download := includes newPermissions "download" |}).
Proof.
  intros H. eexists _, _. split; [apply found_after_edit, H|]. split.
  - apply permissions_updated_target. apply FoundAt_iff in H.
    eapply FoundAt_id, H.
  - unfold appliedFlags, requested. apply specialCases_table.
Qed.

(** C9 (as amended): an edit whose target id is the id of no node of the tree
    finds nothing and leaves the tree and the pending changes as they were. *)
Theorem missing_target_is_silent_noop st targetId newPermissions :
  ~ In targetId (List.map id (nodes (data st))) ->
  findItemAndParents (data st) targetId [] = None
  /\ updatePermissions st targetId newPermissions = st.
Proof.
  intros H. apply findItemAndParents_none in H.
  split; [exact H|apply updatePermissions_not_found, H].
Qed.

(** C10: an edit keeps the skeleton of the tree: the id, name, item type and
    document id of every node, and the sequence of its sub items.  (An absent
    [subItems] and an empty one have the same skeleton: the edit turns the
    absent [subItems] of a target folder into an empty array.) *)
Theorem edit_keeps_skeleton st targetId newPermissions :
  List.map skeleton (data (updatePermissions st targetId newPermissions)) =
  List.map skeleton (data st).
Proof.
  unfold updatePermissions.
  destruct (findItemAndParents (data st) targetId []) as [[item ps]|]; [|reflexivity].
  simpl. unfold updateItemInTree. rewrite List.map_map.
  apply map_ext_Forall, List.Forall_forall. intros x _. apply skeleton_updateItem.
Qed.

(** ** Downward propagation *)

Lemma descendants_propagatedDown newView (l : list FileOrFolder) :
  Forall2 (propagatedDown newView) (nodes l) (nodes (updateSubItems l newView)).
Proof.
  rewrite nodes_updateSubItems. apply Forall2_map_self.
  intros n _. rewrite updateSubItem_unfold. repeat split.
Qed.

(** C5: when the target is a folder, every descendant of the target, direct
    or not, gets the new view of the target, partialView false and its
    previous download AND the new view; when the new view is false all the
    descendants end with view, download and partialView false. *)
Theorem folder_edit_propagates_down st targetId newPermissions item ps :
  findItemAndParents (data st) targetId [] = Some (item, ps) ->
  itemType item = DATAROOM_FOLDER ->
  exists item' ps',
    findItemAndParents (data (updatePermissions st targetId newPermissions))
                       targetId [] = Some (item', ps')
    /\ view (permissions item') = upd_view (appliedFlags newPermissions item)
    /\ Forall2 (propagatedDown (upd_view (appliedFlags newPermissions item)))
               (descendants item) (descendants item')
    /\ (upd_view (appliedFlags newPermissions item) = false ->
        Forall (fun n' => permissions n' =
                          {| view := false; download := false;
                             partialView := Some false |})
               (descendants item')).
Proof.
  intros H T. eexists _, _. split; [apply found_after_edit, H|].
  assert (E : id item = targetId) by (apply FoundAt_iff in H; eapply FoundAt_id, H).
  rewrite (updateItem_target_folder _ _ _ item E T).
  unfold descendants at 2 3; simpl.
  split; [reflexivity|]. split; [apply descendants_propagatedDown|].
  intros ->. rewrite nodes_updateSubItems. apply List.Forall_forall.
  intros n' Hn'. apply in_map_iff in Hn' as (n & <- & _).
  rewrite updateSubItem_unfold; simpl. rewrite andb_false_r. reflexivity.
Qed.

(** ** Upward propagation *)

Lemma viewable_up (ps : list FileOrFolder) (target : FileOrFolder) :
  leadsTo ps target ->
  Forall (fun p => view (permissions p) =
                   existsb (fun child => view (permissions child))
                           (or_empty (subItems p))) ps ->
  view (permissions target) = true ->
  Forall (fun p => view (permissions p) = true) ps.
Proof.
  intros Hl Hagg Hv. induction ps as [|p rest IH]; [constructor|].
  destruct Hl as [Hin Hl]. inversion Hagg as [|? ? Hp Hrest]; subst.
  specialize (IH Hl Hrest). constructor; [|exact IH].
  rewrite Hp. apply existsb_exists. exists (hd target rest). split; [exact Hin|].
  destruct rest as [|q rest']; simpl; [exact Hv|].
  inversion IH; assumption.
Qed.

(** C6: every ancestor on the path from the root to the target is recomputed
    from its updated sub items alone: view = any(child.view), partialView =
    any AND NOT all, download = its previous download AND that view; so when
    the target ends with view on, every ancestor ends with view on. *)
Theorem ancestors_recomputed_from_children st targetId newPermissions item ps :
  findItemAndParents (data st) targetId [] = Some (item, ps) ->
  exists item' ps',
    findItemAndParents (data (updatePermissions st targetId newPermissions))
                       targetId [] = Some (item', ps')
    /\ view (permissions item') = upd_view (appliedFlags newPermissions item)
    /\ leadsTo ps' item'
    /\ Forall2 recomputedUp ps ps'
    /\ (upd_view (appliedFlags newPermissions item) = true ->
        Forall (fun p' => view (permissions p') = true) ps').
Proof.
  intros H. pose proof (found_after_edit st targetId newPermissions item ps H) as H'.
  eexists _, _. split; [exact H'|].
  apply FoundAt_iff in H. pose proof (FoundAt_id _ _ _ _ H) as E.
  pose proof (FoundAt_parents_id _ _ _ _ H) as Hne.
  apply FoundAt_iff in H'. pose proof (FoundAt_leadsTo _ _ _ _ H') as Hl.
  set (u := appliedFlags newPermissions item) in *.
  assert (Hup : Forall2 recomputedUp ps (List.map (updateItem targetId ps u) ps)).
  { apply Forall2_map_self. intros p Hp.
    rewrite List.Forall_forall in Hne.
    rewrite updateItem_parent by (auto using isParent_self).
    split; [reflexivity|]. eexists. split; reflexivity. }
  assert (Hv : view (permissions (updateItem targetId ps u item)) = upd_view u).
  { rewrite permissions_updated_target by exact E. reflexivity. }
  split; [exact Hv|]. split; [exact Hl|]. split; [exact Hup|].
  intros Htrue. apply (viewable_up _ _ Hl); [|congruence].
  apply List.Forall_forall. intros p' Hp'.
  apply in_map_iff in Hp' as (p & <- & Hp).
  rewrite List.Forall_forall in Hne.
  rewrite updateItem_parent by (auto using isParent_self). reflexivity.
Qed.

(** ** The keys of the collected changes *)

Lemma fold_insert_keys {A : Type} (key : A -> string) (entry : A -> PermissionEntry)
    (l : list A) :
  forall (changes : ItemPermission) (k : string),
    is_Some (fold_left (fun acc a => <[key a := entry a]> acc) l changes !! k) <->
    In k (List.map key l) \/ is_Some (changes !! k).
Proof.
  induction l as [|a l IH]; intros changes k; simpl.
  - split; [auto|]. intros [[]|H]; exact H.
  - rewrite IH, lookup_insert_is_Some'. split.
    + intros [H|[H|H]]; auto.
    + intros [[H|H]|H]; auto.
Qed.

Lemma fold_collectSubItem_keys u (l : list FileOrFolder) :
  Forall (fun sub => forall (changes : ItemPermission) (k : string),
            is_Some (collectSubItem u sub changes !! k) <->
            In k (List.map id (nodesOf sub)) \/ is_Some (changes !! k)) l ->
  forall (changes : ItemPermission) (k : string),
    is_Some (fold_left (fun acc sub => collectSubItem u sub acc) l changes !! k) <->
    In k (List.map id (nodes l)) \/ is_Some (changes !! k).
Proof.
  induction 1 as [|x l Hx _ IH]; intros changes k; simpl.
  - split; [auto|]. intros [[]|H]; exact H.
  - rewrite IH, Hx. unfold nodes; simpl. rewrite map_app, in_app_iff. tauto.
Qed.

Lemma collectSubItem_keys u sub :
  forall (changes : ItemPermission) (k : string),
    is_Some (collectSubItem u sub changes !! k) <->
    In k (List.map id (nodesOf sub)) \/ is_Some (changes !! k).
Proof.
  induction sub as [i n subs p t d IH] using FileOrFolder_nested_ind.
  intros changes k. rewrite nodesOf_unfold. unfold descendants. simpl.
  destruct subs as [l|]; simpl in *.
  - rewrite (fold_collectSubItem_keys u l IH), lookup_insert_is_Some'. tauto.
  - rewrite lookup_insert_is_Some'. tauto.
Qed.

Lemma collectSubItemChanges_keys u subs (changes : ItemPermission) (k : string) :
  is_Some (collectSubItemChanges u subs changes !! k) <->
  In k (List.map id (nodes (or_empty subs))) \/ is_Some (changes !! k).
Proof.
  destruct subs as [l|]; simpl.
  - apply fold_collectSubItem_keys, List.Forall_forall.
    intros x _. apply collectSubItem_keys.
  - tauto.
Qed.

(** The collected changes have one key for the target, one for each of its
    descendants and one for each of its ancestors, whatever their state. *)
Lemma collectChanges_keys u item ps (k : string) :
  is_Some (collectChanges u item ps !! k) <->
  k = id item \/ In k (List.map id (descendants item)) \/ In k (List.map id ps).
Proof.
  unfold collectChanges.
  destruct (upd_view u); rewrite fold_insert_keys, collectSubItemChanges_keys,
    lookup_singleton_is_Some; unfold descendants.
  - split; [intros [H|[H|H]]|intros [H|[H|H]]]; auto.
  - rewrite map_rev, <- in_rev.
    split; [intros [H|[H|H]]|intros [H|[H|H]]]; auto.
Qed.

Lemma pendingChanges_after_edit st targetId newPermissions :
  pendingChanges (updatePermissions st targetId newPermissions) =
  match editDiff st targetId newPermissions with
  | Some diff => diff ∪ pendingChanges st
  | None => pendingChanges st
  end.
Proof.
  unfold updatePermissions, editDiff.
  destruct (findItemAndParents (data st) targetId []) as [[item ps]|]; reflexivity.
Qed.

(** ** The invariant [download ⇒ view] *)

Lemma Touched_invariant targetId ps u universe x x' :
  implb (upd_download u) (upd_view u) = true ->
  Touched targetId ps u universe x x' ->
  downloadImpliesView x' = true \/ permissions x' = permissions x.
Proof.
  intros Hu [->|[->|(-> & _)]].
  - apply updateItem_cases; intros _ _; unfold downloadImpliesView; simpl; auto.
    left. destruct (download (permissions x)), (existsb _ _); reflexivity.
  - right; reflexivity.
  - left. rewrite updateSubItem_unfold. unfold downloadImpliesView; simpl.
    destruct (download (permissions x)), (upd_view u); reflexivity.
Qed.

(** Node by node, an edit either establishes [download ⇒ view] or keeps the
    permissions of the node. *)
Lemma edit_invariant_or_unchanged st targetId newPermissions :
  Forall2 (fun n n' => downloadImpliesView n' = true
                       \/ permissions n' = permissions n)
          (nodes (data st))
          (nodes (data (updatePermissions st targetId newPermissions))).
Proof.
  unfold updatePermissions.
  destruct (findItemAndParents (data st) targetId []) as [[item ps]|].
  - simpl. eapply Forall2_weaken; [|apply nodes_updateItemInTree].
    intros x x'. apply Touched_invariant, specialCases_invariant.
  - apply Forall2_same. auto.
Qed.

Lemma invariant_or_unchanged_transfer (l l' : list FileOrFolder) :
  Forall (fun n => downloadImpliesView n = true) l ->
  Forall2 (fun n n' => downloadImpliesView n' = true
                       \/ permissions n' = permissions n) l l' ->
  Forall (fun n => downloadImpliesView n = true) l'.
Proof.
  intros H. revert l'.
  induction H as [|n l Hn _ IH]; intros l' H2; inversion H2 as [|? n' ? k' Hn' Hk']; subst;
    constructor.
  - destruct Hn' as [Hn'|Hn']; [exact Hn'|].
    unfold downloadImpliesView in *. rewrite Hn'. exact Hn.
  - apply IH, Hk'.
Qed.

(** C1 (as amended): an edit preserves the invariant: when every node of the
    tree satisfies download ⇒ view before the edit, every node satisfies it
    after the edit. *)
Theorem edit_preserves_download_implies_view st targetId newPermissions :
  Forall (fun n => downloadImpliesView n = true) (nodes (data st)) ->
  Forall (fun n => downloadImpliesView n = true)
         (nodes (data (updatePermissions st targetId newPermissions))).
Proof.
  intros H. eapply invariant_or_unchanged_transfer; [exact H|].
  apply edit_invariant_or_unchanged.
Qed.

(** ** The entries sent to the server *)

Lemma fold_insert_entries {A : Type} (key : A -> string) (entry : A -> PermissionEntry)
    (Q : PermissionEntry -> Prop) (l : list A) :
  (forall a, Q (entry a)) ->
  forall changes : ItemPermission,
    map_Forall (fun _ e => Q e) changes ->
    map_Forall (fun _ e => Q e)
               (fold_left (fun acc a => <[key a := entry a]> acc) l changes).
Proof.
  intros HQ. induction l as [|a l IH]; intros changes H; simpl; [exact H|].
  apply IH, map_Forall_insert_2; [apply HQ|exact H].
Qed.

Lemma collectSubItem_entries u sub :
  forall changes : ItemPermission,
    map_Forall (fun _ e => entryDownloadImpliesView e = true) changes ->
    map_Forall (fun _ e => entryDownloadImpliesView e = true)
               (collectSubItem u sub changes).
Proof.
  induction sub as [i n subs p t d IH] using FileOrFolder_nested_ind.
  intros changes H. simpl.
  assert (Hi : map_Forall (fun _ e => entryDownloadImpliesView e = true)
                 (<[i := {| entry_view := upd_view u;
                            entry_download := download p && upd_view u;
                            entry_itemType := t |}]> changes)).
  { apply map_Forall_insert_2; [|exact H].
    unfold entryDownloadImpliesView; simpl.
    destruct (download p), (upd_view u); reflexivity. }
  destruct subs as [l|]; [|exact Hi]. simpl in IH.
  revert Hi. generalize (<[i := {| entry_view := upd_view u;
                                   entry_download := download p && upd_view u;
                                   entry_itemType := t |}]> changes).
  induction IH as [|x l Hx _ IHl]; intros c Hc; simpl; [exact Hc|].
  apply IHl, Hx, Hc.
Qed.

(** Whatever the tree, no entry collected by an edit has download without
    view. *)
Lemma collected_entries_download_implies_view st targetId newPermissions diff :
  editDiff st targetId newPermissions = Some diff ->
  map_Forall (fun _ e => entryDownloadImpliesView e = true) diff.
Proof.
  unfold editDiff.
  destruct (findItemAndParents (data st) targetId []) as [[item ps]|]; [|discriminate].
  intros [= <-]. unfold collectChanges.
  set (u := appliedFlags newPermissions item).
  assert (Hsub : map_Forall (fun _ e => entryDownloadImpliesView e = true)
                   (collectSubItemChanges u (subItems item)
                      {[ id item := {| entry_view := upd_view u;
                                       entry_download := upd_download u;
                                       entry_itemType := itemType item |} ]})).
  { assert (H0 : map_Forall (fun _ e => entryDownloadImpliesView e = true)
                   ({[ id item := {| entry_view := upd_view u;
                                     entry_download := upd_download u;
                                     entry_itemType := itemType item |} ]}
                    : ItemPermission)).
    { apply map_Forall_singleton. apply specialCases_invariant. }
    revert H0. generalize ({[ id item := {| entry_view := upd_view u;
                                            entry_download := upd_download u;
                                            entry_itemType := itemType item |} ]}
                           : ItemPermission).
    unfold collectSubItemChanges. destruct (subItems item) as [l|]; [|auto].
    induction l as [|x l IHl]; intros c Hc; simpl; [exact Hc|].
    apply IHl, collectSubItem_entries, Hc. }
  destruct (upd_view u).
  - apply (fold_insert_entries id
             (fun parent => {| entry_view := true;
                               entry_download := download (permissions parent);
                               entry_itemType := itemType parent |})
             (fun e => entryDownloadImpliesView e = true)); [|exact Hsub].
    intros parent. unfold entryDownloadImpliesView; simpl.
    destruct (download (permissions parent)); reflexivity.
  - apply (fold_insert_entries id
             (fun parent =>
                {| entry_view := or_false (parentSomeViewable u item parent);
                   entry_download :=
                     and_or_false (download (permissions parent))
                                  (parentSomeViewable u item parent);
                   entry_itemType := itemType parent |})
             (fun e => entryDownloadImpliesView e = true)); [|exact Hsub].
    intros parent. unfold entryDownloadImpliesView, and_or_false; simpl.
    destruct (download (permissions parent)), (or_false _); reflexivity.
Qed.

(** ** Repeating an edit *)

Lemma ids_map_updateItem targetId ps u (l : list FileOrFolder) :
  List.map id (List.map (updateItem targetId ps u) l) = List.map id l.
Proof.
  rewrite List.map_map. apply map_ext_Forall, List.Forall_forall.
  intros x _. apply id_updateItem.
Qed.

(** C3 (as amended): the same request, with download only together with view,
    applied a second time to the same target leaves the tree as the first
    edit made it; the changes collected by the second edit are not empty:
    they hold an entry for the target again. *)
Theorem repeated_edit_keeps_tree st targetId newPermissions item ps :
  findItemAndParents (data st) targetId [] = Some (item, ps) ->
  implb (includes newPermissions "download") (includes newPermissions "view") = true ->
  data (updatePermissions (updatePermissions st targetId newPermissions)
                          targetId newPermissions) =
  data (updatePermissions st targetId newPermissions)
  /\ exists diff,
       editDiff (updatePermissions st targetId newPermissions)
                targetId newPermissions = Some diff
       /\ is_Some (diff !! targetId).
Proof.
  intros H Hreq.
  pose proof (found_after_edit st targetId newPermissions item ps H) as H1.
  assert (E : id item = targetId) by (apply FoundAt_iff in H; eapply FoundAt_id, H).
  set (u := appliedFlags newPermissions item) in *.
  set (st1 := updatePermissions st targetId newPermissions) in *.
  split.
  - rewrite (updatePermissions_found st1 _ _ _ _ H1). simpl.
    assert (Hu : appliedFlags newPermissions (updateItem targetId ps u item) = u).
    { unfold appliedFlags. rewrite permissions_updated_target by exact E.
      simpl. apply specialCases_again. exact Hreq. }
    rewrite Hu. unfold st1. rewrite (updatePermissions_found st _ _ _ _ H). simpl.
    fold u.
    assert (Hext : forall l,
              updateItemInTree targetId (List.map (updateItem targetId ps u) ps) u l =
              updateItemInTree targetId ps u l).
    { intros l. apply map_ext_Forall, List.Forall_forall. intros x _.
      apply updateItem_same_ids, ids_map_updateItem. }
    rewrite Hext. apply updateItemInTree_idempotent.
  - unfold editDiff. rewrite H1. eexists. split; [reflexivity|].
    apply collectChanges_keys. left. rewrite id_updateItem. symmetry; exact E.
Qed.

(** ** Which nodes the collected changes cover *)


Lemma NoDup_map_injective {A B : Type} (f : A -> B) (l : list A) a b :
  NoDup (List.map f l) -> In a l -> In b l -> f a = f b -> a = b.
Proof.
  induction l as [|x l IH]; simpl; [intros _ []|].
  intros Hnd [->|Ha] [->|Hb] E; auto.
  - apply NoDup_cons_1_1 in Hnd. exfalso. apply Hnd.
    rewrite E. apply list_elem_of_In, in_map, Hb.
  - apply NoDup_cons_1_1 in Hnd. exfalso. apply Hnd.
    rewrite <- E. apply list_elem_of_In, in_map, Ha.
  - apply NoDup_cons_1_2 in Hnd. auto.
Qed.


(** ** Flushing the pending changes *)

(** C8 (as amended): [saveChanges] sends its batch once; [pendingChanges] is
    emptied when the save succeeded and is left as it was when it failed, so
    after a failure the batch is still pending; the tree is not touched. *)
Theorem pending_cleared_only_on_success st changes outcome :
  data (fst (saveChanges st changes outcome)) = data st
  /\ pendingChanges (fst (saveChanges st changes outcome)) =
     (if succeeded outcome then ∅ else pendingChanges st)
  /\ List.filter isPost (snd (saveChanges st changes outcome)) = [Post changes].
Proof. destruct outcome as [[|]|]; repeat split. Qed.

(** ** The tree built by [buildTree] *)



Lemma mapM_total {A B : Type} (f : A -> option B) (Q : B -> Prop) (l : list A) :
  (forall x, In x l -> exists y, f x = Some y /\ Q y) ->
  exists k, mapM f l = Some k /\ Forall Q k.
Proof.
  induction l as [|x l IH]; intros H; simpl.
  - exists []. split; [reflexivity|constructor].
  - destruct (H x (or_introl eq_refl)) as (y & Hy & Qy).
    destruct IH as (k & Hk & Qk); [intros z Hz; apply H; right; exact Hz|].
    exists (y :: k). rewrite Hy; simpl. rewrite Hk; simpl.
    split; [reflexivity|constructor; assumption].
Qed.

Lemma mapM_sound {A B : Type} (f : A -> option B) (Q : B -> Prop) (l : list A) k :
  (forall x y, In x l -> f x = Some y -> Q y) ->
  mapM f l = Some k -> Forall Q k.
Proof.
  revert k. induction l as [|x l IH]; intros k H; simpl.
  - intros [= <-]. constructor.
  - destruct (f x) as [y|] eqn:Hy; simpl; [|discriminate].
    destruct (mapM f l) as [k'|] eqn:Hk; simpl; [|discriminate].
    intros [= <-]. constructor; [eapply H; [left; reflexivity|exact Hy]|].
    apply IH; [|reflexivity]. intros z w Hz. apply H. right; exact Hz.
Qed.

Lemma Forall_nodes (Q : FileOrFolder -> Prop) (l : list FileOrFolder) :
  Forall (fun x => Forall Q (nodesOf x)) l -> Forall Q (nodes l).
Proof.
  induction 1 as [|x l Hx _ IH]; [constructor|].
  unfold nodes in *; simpl. apply Forall_app; split; assumption.
Qed.

Lemma builtState_folderDocument permissions0 doc :
  Forall (builtState permissions0) (nodesOf (folderDocument permissions0 doc)).
Proof. repeat constructor. Qed.

Lemma builtState_levelDocument permissions0 doc y :
  levelDocument permissions0 doc = Some y ->
  Forall (builtState permissions0) (nodesOf y).
Proof.
  unfold levelDocument. destruct (raw_document doc); [|discriminate].
  intros [= <-]. repeat constructor.
Qed.

Lemma builtState_buildFolder permissions0 folder (subs : list FileOrFolder) :
  Forall (builtState permissions0) (nodes subs) ->
  Forall (builtState permissions0) (nodesOf (buildFolder permissions0 folder subs)).
Proof.
  intros Hsubs. unfold buildFolder. simpl. constructor.
  - unfold builtState; simpl. eexists. split; [reflexivity|].
    unfold someViewable, allViewable. f_equal.
    rewrite <- orb_assoc, orb_diag. reflexivity.
  - fold (nodes (subs ++ List.map (folderDocument permissions0)
                                  (or_empty (raw_documents folder)))).
    rewrite nodes_app. apply Forall_app. split; [exact Hsubs|].
    apply Forall_nodes, List.Forall_forall. intros y Hy.
    apply in_map_iff in Hy as (doc & <- & _). apply builtState_folderDocument.
Qed.

(** Whatever the bound, a tree that [buildTree] returns has the built state
    on every node. *)
Lemma buildTree_sound permissions0 items fuel :
  forall parentId tree,
    buildTree fuel items permissions0 parentId = Some tree ->
    Forall (builtState permissions0) (nodes tree).
Proof.
  induction fuel as [|fuel IH]; intros parentId tree; simpl; [discriminate|].
  destruct (mapM _ (foldersAt items parentId)) as [folders|] eqn:Hf; simpl; [|discriminate].
  destruct (mapM _ (documentsAt items parentId)) as [documents|] eqn:Hd; simpl;
    [|discriminate].
  intros [= <-]. rewrite nodes_app. apply Forall_app. split; apply Forall_nodes.
  - eapply mapM_sound; [|exact Hf]. intros folder y _. simpl.
    destruct (buildTree fuel items permissions0 (Some (raw_id folder))) as [subs|] eqn:Hs;
      simpl; [|discriminate].
    intros [= <-]. apply builtState_buildFolder. eapply IH, Hs.
  - eapply mapM_sound; [|exact Hd]. intros doc y _. apply builtState_levelDocument.
Qed.

Lemma buildTree_S fuel items permissions0 parentId :
  buildTree (S fuel) items permissions0 parentId =
  (folders ← mapM
     (fun folder =>
        subItems ← buildTree fuel items permissions0 (Some (raw_id folder));
        Some (buildFolder permissions0 folder subItems))
     (foldersAt items parentId);
   documents ← mapM (levelDocument permissions0) (documentsAt items parentId);
   Some (folders ++ documents)).
Proof. reflexivity. Qed.

Lemma parentId_eqb_eq a b : parentId_eqb a b = true -> a = b.
Proof.
  destruct a, b; simpl; try discriminate; [|reflexivity].
  intros H. apply String.eqb_eq in H. congruence.
Qed.

Lemma foldersAt_In items parentId f :
  In f (foldersAt items parentId) ->
  In f items /\ raw_parentId f = parentId /\ raw_document f = None.
Proof.
  unfold foldersAt. rewrite filter_In. intros [Hin H].
  apply andb_prop in H as [H1 H2]. apply parentId_eqb_eq in H1.
  unfold has_document in H2. destruct (raw_document f); [discriminate|]. auto.
Qed.

Lemma documentsAt_levelDocument permissions0 items parentId doc :
  In doc (documentsAt items parentId) ->
  exists y, levelDocument permissions0 doc = Some y /\ True.
Proof.
  unfold documentsAt. rewrite filter_In. intros [_ H].
  assert (Hd : has_document doc = true).
  { apply orb_prop in H as [H|H]; apply andb_prop in H as [_ H]; exact H. }
  unfold has_document, levelDocument in *.
  destruct (raw_document doc); [eauto|discriminate].
Qed.

Section BuildTreeEnds.
Variable items : list RawItem.
Variable permissions0 : list ViewerGroupAccessControls.
(** A height of the folders: a folder is lower than the folder it is in. *)
Variable rank : string -> nat.
Hypothesis rank_parent : forall f p,
  In f items -> raw_document f = None -> raw_parentId f = Some p ->
  rank (raw_id f) < rank p.

End BuildTreeEnds.

(** With overrides that grant download only together with view, the tree
    [buildTree] returns satisfies [download ⇒ view] on every node, and so does
    the tree after any sequence of edits. *)
Lemma getPermissions_download_implies_view permissions0 i :
  Forall (fun p => implb (canDownload p) (canView p) = true) permissions0 ->
  implb (download (getPermissions permissions0 i))
        (view (getPermissions permissions0 i)) = true.
Proof.
  intros H. unfold getPermissions; simpl.
  destruct (List.find _ permissions0) as [p|] eqn:F; [|reflexivity].
  apply find_some in F as [F _]. rewrite List.Forall_forall in H. apply H, F.
Qed.

Lemma builtState_download_implies_view permissions0 n :
  Forall (fun p => implb (canDownload p) (canView p) = true) permissions0 ->
  builtState permissions0 n -> downloadImpliesView n = true.
Proof.
  intros H. generalize (getPermissions_download_implies_view permissions0 (id n) H).
  unfold builtState, downloadImpliesView.
  generalize (getPermissions permissions0 (id n)) as g. intros g Hg.
  destruct (itemType n).
  - intros ->. exact Hg.
  - intros (children & _ & ->). simpl.
    destruct (download g), (view g); simpl in *; try reflexivity; discriminate.
Qed.

Lemma buildTree_download_implies_view permissions0 items fuel parentId tree :
  Forall (fun p => implb (canDownload p) (canView p) = true) permissions0 ->
  buildTree fuel items permissions0 parentId = Some tree ->
  Forall (fun n => downloadImpliesView n = true) (nodes tree).
Proof.
  intros H Hb. eapply List.Forall_impl; [|eapply buildTree_sound, Hb].
  intros n. apply builtState_download_implies_view, H.
Qed.

Lemma edits_preserve_download_implies_view (edits : list (string * list string)) :
  forall st,
    Forall (fun n => downloadImpliesView n = true) (nodes (data st)) ->
    Forall (fun n => downloadImpliesView n = true)
           (nodes (data (updatePermissionsAll st edits))).
Proof.
  induction edits as [|[targetId newPermissions] edits IH]; intros st H; simpl;
    [exact H|].
  apply IH. simpl.
  eapply invariant_or_unchanged_transfer; [exact H|].
  apply edit_invariant_or_unchanged.
Qed.


(** ** Where the code differs from the specification *)

(** C1 (as stated) fails: [buildTree] gives doc2 download without view from
    its override; editing doc1 leaves doc2 as it is, so a node of the
    resulting tree has download on and view off. *)
Lemma untouched_node_keeps_download_without_view :
  buildTree 1 exRootItems exRootOverrides None = Some exRootTree
  /\ findItemAndParents exRootTree "doc1" [] <> None
  /\ List.map (fun n => (id n, viewDownload n))
       (nodes (data (updatePermissions {| data := exRootTree; pendingChanges := ∅ |}
                                       "doc1" ["view"%string]))) =
     [("doc1"%string, (true, false)); ("doc2"%string, (false, true))]
  /\ List.map downloadImpliesView
       (nodes (data (updatePermissions {| data := exRootTree; pendingChanges := ∅ |}
                                       "doc1" ["view"%string]))) =
     [true; false].
Proof. repeat split. discriminate. Qed.


(** C3 (as stated) fails: the second of two identical edits still collects
    entries for the target and its ancestor, and so does an edit that requests
    the state the target already has. *)
Lemma second_identical_edit_collects_changes :
  editDiff (updatePermissions exState "Doc1" ["view"%string]) "Doc1" ["view"%string]
    ≫= (.!! "Doc1"%string) =
  Some {| entry_view := true; entry_download := false;
          entry_itemType := DATAROOM_DOCUMENT |}
  /\ editDiff (updatePermissions exState "Doc1" ["view"%string]) "Doc1" ["view"%string]
       ≫= (.!! "FolderA"%string) =
     Some {| entry_view := true; entry_download := false;
             entry_itemType := DATAROOM_FOLDER |}
  /\ option_map viewDownload (nodes (data exState) !! 2) = Some (false, false)
  /\ editDiff exState "Doc2" [] ≫= (.!! "Doc2"%string) =
     Some {| entry_view := false; entry_download := false;
             entry_itemType := DATAROOM_DOCUMENT |}.
Proof. repeat split. Qed.

(** A request of download without view is not even stable on the tree: on a
    document with view and download on, the first edit turns both off and the
    second edit turns both on. *)
Example download_only_request_twice :
  List.map viewDownload
    (nodes (data (updatePermissions
                    {| data := [exDocument "doc1" true true]; pendingChanges := ∅ |}
                    "doc1" ["download"%string]))) = [(false, false)]
  /\ List.map viewDownload
       (nodes (data (updatePermissions
                       (updatePermissions
                          {| data := [exDocument "doc1" true true];
                             pendingChanges := ∅ |}
                          "doc1" ["download"%string])
                       "doc1" ["download"%string]))) = [(true, true)].
Proof. split; reflexivity. Qed.

(** A request that repeats the state of a folder with partial view still
    rewrites its sub items. *)
Example current_state_of_partial_folder :
  option_map viewDownload (nodes (data exStatePartial) !! 0) = Some (true, false)
  /\ List.map viewDownload
       (nodes (data (updatePermissions exStatePartial "FolderA" ["view"%string]))) =
     [(true, false); (true, false); (true, false)].
Proof. split; reflexivity. Qed.

(** When view is turned off, the entry collected for an ancestor above the
    parent is computed from the sub items as they were before the edit: here
    the tree ends with G not viewable and the entry of G says viewable. *)
Example entry_of_grandparent_from_old_state :
  List.map (fun n => (id n, viewDownload n))
    (nodes (data (updatePermissions exStateDeep "D" []))) =
  [("G"%string, (false, false)); ("P"%string, (false, false));
   ("D"%string, (false, false))]
  /\ editDiff exStateDeep "D" [] ≫= (.!! "G"%string) =
     Some {| entry_view := true; entry_download := false;
             entry_itemType := DATAROOM_FOLDER |}.
Proof. split; reflexivity. Qed.

(** C8 (as stated) fails: after a save that failed, the batch is still in
    [pendingChanges], and the next flush sends it again. *)
Lemma failed_batch_stays_pending :
  pendingChanges
    (fst (saveChanges exStatePending {[ "doc1"%string := exEntry ]} (Responded false))) =
  {[ "doc1"%string := exEntry ]}
  /\ snd (flushEffect
            (fst (saveChanges exStatePending {[ "doc1"%string := exEntry ]}
                              (Responded false)))
            {[ "doc1"%string := exEntry ]} (Responded true)) =
     [Post {[ "doc1"%string := exEntry ]}; ToastSuccess].
Proof. split; reflexivity. Qed.

(** C9 (as stated) fails: [updatePermissions] returns nothing, and here the
    edit of an id that is missing and the edit of an id that exists leave the
    same state, so nothing tells the caller that the id was not found. *)
Lemma missing_target_not_signalled :
  findItemAndParents (data exStatePending) "missing" [] = None
  /\ findItemAndParents (data exStatePending) "doc1" [] =
     Some (exDocument "doc1" false false, [])
  /\ updatePermissions exStatePending "missing" [] = exStatePending
  /\ updatePermissions exStatePending "doc1" [] = exStatePending.
Proof. repeat split. Qed.

(** ** The theorems at concrete inputs *)

Lemma edit_preserves_download_implies_view_witness :
  Forall (fun n => downloadImpliesView n = true) (nodes (data exState))
  /\ Forall (fun n => downloadImpliesView n = true)
            (nodes (data (updatePermissions exState "Doc1" ["view"%string]))).
Proof.
  split; [repeat constructor|].
  apply (edit_preserves_download_implies_view exState "Doc1" ["view"%string]).
  repeat constructor.
Defined.


Lemma repeated_edit_keeps_tree_witness :
  data (updatePermissions (updatePermissions exState "Doc1" ["view"%string])
                          "Doc1" ["view"%string]) =
  data (updatePermissions exState "Doc1" ["view"%string])
  /\ exists diff,
       editDiff (updatePermissions exState "Doc1" ["view"%string])
                "Doc1" ["view"%string] = Some diff
       /\ is_Some (diff !! "Doc1"%string).
Proof.
  apply (repeated_edit_keeps_tree exState "Doc1" ["view"%string]
           (exDocument "Doc1" false false)
           [exFolder "FolderA" false false false
              [exDocument "Doc1" false false; exDocument "Doc2" false false]]);
    reflexivity.
Defined.

Lemma special_cases_applied_to_target_witness :
  exists item' ps',
    findItemAndParents (data (updatePermissions exState "Doc1" ["download"%string]))
                       "Doc1" [] = Some (item', ps')
    /\ permissions item' =
       applied (appliedFlags ["download"%string] (exDocument "Doc1" false false))
    /\ appliedFlags ["download"%string] (exDocument "Doc1" false false) =
       {| upd_view := true; upd_download := true |}.
Proof.
  apply (special_cases_applied_to_target exState "Doc1" ["download"%string]
           (exDocument "Doc1" false false)
           [exFolder "FolderA" false false false
              [exDocument "Doc1" false false; exDocument "Doc2" false false]]).
  reflexivity.
Defined.

Lemma folder_edit_propagates_down_witness :
  exists item' ps',
    findItemAndParents (data (updatePermissions exStatePartial "FolderA" []))
                       "FolderA" [] = Some (item', ps')
    /\ view (permissions item') = false
    /\ Forall2 (propagatedDown false)
               [exDocument "Doc1" true false; exDocument "Doc2" false false]
               (descendants item')
    /\ (false = false ->
        Forall (fun n' => permissions n' =
                          {| view := false; download := false;
                             partialView := Some false |})
               (descendants item')).
Proof.
  apply (folder_edit_propagates_down exStatePartial "FolderA" []
           (exFolder "FolderA" true false true
              [exDocument "Doc1" true false; exDocument "Doc2" false false])
           []); reflexivity.
Defined.

Lemma ancestors_recomputed_from_children_witness :
  exists item' ps',
    findItemAndParents (data (updatePermissions exState "Doc1" ["view"%string]))
                       "Doc1" [] = Some (item', ps')
    /\ view (permissions item') = true
    /\ leadsTo ps' item'
    /\ Forall2 recomputedUp
               [exFolder "FolderA" false false false
                  [exDocument "Doc1" false false; exDocument "Doc2" false false]]
               ps'
    /\ (true = true -> Forall (fun p' => view (permissions p') = true) ps').
Proof.
  apply (ancestors_recomputed_from_children exState "Doc1" ["view"%string]
           (exDocument "Doc1" false false)
           [exFolder "FolderA" false false false
              [exDocument "Doc1" false false; exDocument "Doc2" false false]]).
  reflexivity.
Defined.




Lemma missing_target_is_silent_noop_witness :
  ~ In "missing"%string (List.map id (nodes (data exState)))
  /\ findItemAndParents (data exState) "missing" [] = None
  /\ updatePermissions exState "missing" ["view"%string] = exState.
Proof.
  assert (H : ~ In "missing"%string (List.map id (nodes (data exState)))).
  { simpl. intros [H|[H|[H|[]]]]; discriminate. }
  split; [exact H|].
  apply (missing_target_is_silent_noop exState "missing" ["view"%string] H).
Defined.

(** The tree [buildTree] returns for the example: B is empty and not
    viewable; A is viewable through a1, and partially so. *)
Example buildTree_example :
  option_map (List.map (fun n => (id n, permissions n)))
             (option_map nodes (buildTree 3 exItems exOverrides None)) =
  Some [("A"%string, {| view := true; download := false; partialView := Some true |});
        ("B"%string, {| view := false; download := false; partialView := Some false |});
        ("a1"%string, {| view := true; download := true; partialView := Some false |});
        ("a2"%string, {| view := false; download := false; partialView := Some false |})].
Proof. reflexivity. Qed.

(** The two edits of the end-to-end example of the specification. *)
Example end_to_end_first_edit :
  List.map (fun n => (id n, permissions n))
    (nodes (data (updatePermissions exState "Doc1" ["view"%string]))) =
  [("FolderA"%string, {| view := true; download := false; partialView := Some true |});
   ("Doc1"%string, {| view := true; download := false; partialView := Some false |});
   ("Doc2"%string, {| view := false; download := false; partialView := Some false |})].
Proof. reflexivity. Qed.

Example end_to_end_second_edit :
  List.map (fun n => (id n, permissions n))
    (nodes (data (updatePermissions
                    (updatePermissions exState "Doc1" ["view"%string])
                    "Doc2" ["view"%string]))) =
  [("FolderA"%string, {| view := true; download := false; partialView := Some false |});
   ("Doc1"%string, {| view := true; download := false; partialView := Some false |});
   ("Doc2"%string, {| view := true; download := false; partialView := Some false |})].
Proof. reflexivity. Qed.

(** ** Trees with unique ids: the edit follows the path to the target *)

Lemma updateItem_unchanged targetId Ps u z :
  (forall n, In n (nodesOf z) -> id n <> targetId /\ isParent Ps n = false) ->
  updateItem targetId Ps u z = z.
Proof.
  induction z as [i n subs p t d IH] using FileOrFolder_nested_ind. intros H.
  set (z := mkFileOrFolder i n subs p t d) in *.
  destruct (H z) as [Hi Hp]; [rewrite nodesOf_unfold; left; reflexivity|].
  rewrite updateItem_other by assumption. subst z; simpl. f_equal.
  destruct subs as [l|]; [|reflexivity]. simpl in *. f_equal.
  unfold updateItemInTree. rewrite <- (map_id l) at 2.
  apply map_ext_Forall, List.Forall_forall. intros s Hs.
  rewrite List.Forall_forall in IH. apply IH; [exact Hs|].
  intros m Hm. apply H. right. apply in_flat_map. exists s. auto.
Qed.

Lemma updateItemInTree_unchanged targetId Ps u (l : list FileOrFolder) :
  (forall n, In n (nodes l) -> id n <> targetId /\ isParent Ps n = false) ->
  updateItemInTree targetId Ps u l = l.
Proof.
  intros H. unfold updateItemInTree. rewrite <- (map_id l) at 2.
  apply map_ext_Forall, List.Forall_forall. intros z Hz.
  apply updateItem_unchanged. intros n Hn. apply H.
  eapply In_nodes_sub; eassumption.
Qed.

Lemma updateItem_target targetId Ps u x :
  id x = targetId -> updateItem targetId Ps u x = editTarget u x.
Proof.
  intros E. unfold editTarget. destruct (itemType x) eqn:T.
  - rewrite updateItem_target_document by assumption. reflexivity.
  - rewrite updateItem_target_folder by assumption. reflexivity.
Qed.

(** In a tree with unique ids, the ids of an item, of its descendants, of
    the items before it and of the items after it are apart. *)
Lemma NoDup_ids_split (before : list FileOrFolder) x after :
  NoDup (List.map id (nodes (before ++ x :: after))) ->
  NoDup (List.map id (descendants x))
  /\ ~ In (id x) (List.map id (descendants x))
  /\ (forall k, In k (id x :: List.map id (descendants x)) ->
                ~ In k (List.map id (nodes before))
                /\ ~ In k (List.map id (nodes after))).
Proof.
  rewrite nodes_app, nodes_cons, map_app. simpl. rewrite map_app.
  intros H. apply NoDup_app in H as (_ & H1 & H).
  apply NoDup_cons in H as (H2 & H). apply NoDup_app in H as (H3 & H4 & _).
  assert (H2' : ~ In (id x) (List.map id (descendants x) ++ List.map id (nodes after)))
    by (rewrite <- list_elem_of_In; exact H2).
  split; [exact H3|]. split.
  - intros Hd. apply H2', in_or_app. left; exact Hd.
  - intros k Hk. split.
    + intros Hb. apply list_elem_of_In in Hb. apply (H1 k Hb).
      apply list_elem_of_In. destruct Hk as [<-|Hk]; [left; reflexivity|].
      right. apply in_or_app. left; exact Hk.
    + intros Ha. destruct Hk as [<-|Hk].
      * apply H2', in_or_app. right; exact Ha.
      * apply list_elem_of_In in Hk, Ha. apply (H4 k Hk Ha).
Qed.

Section AlongThePath.
Variable targetId : string.
Variable updatedPermissions : UpdatedPermissions.

Lemma edit_along_path_gen items item ps :
  FoundAt targetId items item ps ->
  forall Ps,
    NoDup (List.map id (nodes items)) ->
    (forall n, In n (nodes items) -> isParent Ps n = true ->
               In (id n) (List.map id ps)) ->
    Forall (fun p => isParent Ps p = true) ps ->
    EditedAlong updatedPermissions ps item items
                (updateItemInTree targetId Ps updatedPermissions items).
Proof.
  induction 1 as [before x after Hb Hx|before x after subs item ps Hb Hx Hs Hf IH];
    intros Ps Hnd Honly Hps.
  - destruct (NoDup_ids_split _ _ _ Hnd) as (_ & _ & Hsplit).
    unfold updateItemInTree. rewrite map_app. simpl.
    fold (updateItemInTree targetId Ps updatedPermissions before).
    fold (updateItemInTree targetId Ps updatedPermissions after).
    rewrite updateItem_target by exact Hx.
    rewrite (updateItemInTree_unchanged _ _ _ before),
      (updateItemInTree_unchanged _ _ _ after).
    + apply edited_here.
    + intros n Hn. split.
      * intros E. apply (Hsplit (id x)); [left; reflexivity|].
        rewrite Hx, <- E. apply in_map, Hn.
      * destruct (isParent Ps n) eqn:Hp; [|reflexivity]. exfalso.
        apply (Honly n); [|exact Hp]. rewrite nodes_app, nodes_cons.
        apply in_or_app. right. right. apply in_or_app. right. exact Hn.
    + intros n Hn. split.
      * intros E. apply Hb. rewrite <- E. apply in_map, Hn.
      * destruct (isParent Ps n) eqn:Hp; [|reflexivity]. exfalso.
        apply (Honly n); [|exact Hp]. rewrite nodes_app.
        apply in_or_app. left. exact Hn.
  - destruct (NoDup_ids_split _ _ _ Hnd) as (Hnds & Hxd & Hsplit).
    assert (Hd : descendants x = nodes subs) by (unfold descendants; rewrite Hs; reflexivity).
    destruct (FoundAt_In _ _ _ _ Hf) as [Hitem Hpsin].
    pose proof (FoundAt_id _ _ _ _ Hf) as Hid.
    inversion Hps as [|? ? Hpx Hps']; subst.
    (* the ids of the path are ids of [x] and of its descendants *)
    assert (Hpath : forall k, In k (id item :: List.map id (x :: ps)) ->
                              In k (id x :: List.map id (descendants x))).
    { intros k [<-|[<-|Hk]].
      - right. rewrite Hd. apply in_map, Hitem.
      - left; reflexivity.
      - right. rewrite Hd. apply in_map_iff in Hk as (q & <- & Hq).
        apply in_map. rewrite List.Forall_forall in Hpsin. apply Hpsin, Hq. }
    assert (Hout : forall l, (forall k, In k (id x :: List.map id (descendants x)) ->
                                        ~ In k (List.map id (nodes l))) ->
                             (forall n, In n (nodes l) -> In n (nodes (before ++ x :: after))) ->
                             updateItemInTree (id item) Ps updatedPermissions l = l).
    { intros l Hl Hsub. apply updateItemInTree_unchanged. intros n Hn. split.
      - intros E. apply (Hl (id item)); [apply Hpath; left; reflexivity|].
        rewrite <- E. apply in_map, Hn.
      - destruct (isParent Ps n) eqn:Hp; [|reflexivity]. exfalso.
        apply (Hl (id n)); [|apply in_map, Hn].
        apply Hpath. right. apply Honly; [apply Hsub, Hn|exact Hp]. }
    unfold updateItemInTree. rewrite map_app. simpl.
    fold (updateItemInTree (id item) Ps updatedPermissions before).
    fold (updateItemInTree (id item) Ps updatedPermissions after).
    rewrite (Hout before), (Hout after).
    + rewrite updateItem_parent by assumption. rewrite Hs. simpl.
      apply (edited_below updatedPermissions before x after subs); [exact Hs|].
      apply IH; [rewrite <- Hd; exact Hnds| |exact Hps'].
      intros n Hn Hp.
      assert (Hin : In n (nodes (before ++ x :: after))).
      { rewrite nodes_app, nodes_cons. apply in_or_app. right. right.
        apply in_or_app. left. rewrite Hd. exact Hn. }
      destruct (Honly n Hin Hp) as [E|Hk]; [|exact Hk].
      exfalso. apply Hxd. rewrite E, Hd. apply in_map, Hn.
    + intros k Hk. apply (Hsplit k Hk).
    + intros n Hn. rewrite nodes_app, nodes_cons. apply in_or_app. right. right.
      apply in_or_app. right. exact Hn.
    + intros k Hk. apply (Hsplit k Hk).
    + intros n Hn. rewrite nodes_app. apply in_or_app. left. exact Hn.
Qed.
End AlongThePath.

Lemma edit_along_path st targetId newPermissions item ps :
  NoDup (List.map id (nodes (data st))) ->
  findItemAndParents (data st) targetId [] = Some (item, ps) ->
  EditedAlong (appliedFlags newPermissions item) ps item (data st)
              (data (updatePermissions st targetId newPermissions)).
Proof.
  intros Hnd H. rewrite (updatePermissions_found _ _ _ _ _ H). simpl.
  apply FoundAt_iff in H. apply edit_along_path_gen; auto.
  - intros n _. apply isParent_In_ids.
  - apply Forall_isParent_self.
Qed.

(** X1: in a tree with unique ids, the tree after an edit is the tree before
    it with the target rewritten, each ancestor recomputed from its new sub
    items, and every other item of every level exactly as it was. *)
Theorem edit_follows_path st targetId newPermissions item ps :
  NoDup (List.map id (nodes (data st))) ->
  findItemAndParents (data st) targetId [] = Some (item, ps) ->
  EditedAlong (appliedFlags newPermissions item) ps item (data st)
              (data (updatePermissions st targetId newPermissions)).
Proof. apply edit_along_path. Qed.

Lemma descendants_editTarget u x :
  descendants (editTarget u x) =
  match itemType x with
  | DATAROOM_FOLDER => List.map (updateSubItem (upd_view u)) (descendants x)
  | DATAROOM_DOCUMENT => descendants x
  end.
Proof.
  unfold descendants, editTarget; simpl.
  destruct (itemType x); [reflexivity|]. simpl. apply nodes_updateSubItems.
Qed.

(** Node by node along the path: a node is left as it is unless it is the
    target, one of its descendants or one of its ancestors. *)
Lemma EditedAlong_frame u ps item items items' :
  EditedAlong u ps item items items' ->
  Forall2 (fun n n' => n' = n \/ n = item \/ In n (descendants item) \/ In n ps)
          (nodes items) (nodes items').
Proof.
  induction 1 as [before x after|before x after subs subs' item ps Hs _ IH];
    rewrite !nodes_app, !nodes_cons.
  - apply Forall2_app; [apply Forall2_same; auto|].
    constructor; [auto|].
    apply Forall2_app; [|apply Forall2_same; auto].
    rewrite descendants_editTarget. destruct (itemType x).
    + apply Forall2_same; auto.
    + apply Forall2_map_self; auto.
  - apply Forall2_app; [apply Forall2_same; auto|].
    constructor; [right; right; right; left; reflexivity|].
    apply Forall2_app; [|apply Forall2_same; auto].
    unfold descendants at 1 2. rewrite Hs. simpl.
    eapply Forall2_weaken; [|exact IH].
    intros n n' [Hn|[Hn|[Hn|Hn]]]; auto using in_cons.
Qed.

(** X2: in a tree with unique ids an edit never changes a node other than
    the target, the descendants of the target and the ancestors on its path:
    every other node of the tree, with its whole state and its sub items, is
    the same before and after. *)
Theorem edit_leaves_other_nodes st targetId newPermissions item ps :
  NoDup (List.map id (nodes (data st))) ->
  findItemAndParents (data st) targetId [] = Some (item, ps) ->
  Forall2 (fun n n' => n' = n \/ n = item \/ In n (descendants item) \/ In n ps)
          (nodes (data st))
          (nodes (data (updatePermissions st targetId newPermissions))).
Proof.
  intros Hnd H. eapply EditedAlong_frame, edit_along_path; eassumption.
Qed.

(** ** The shape of the tree and the partial view of the folders *)

Lemma wellShaped_updateSubItem v n :
  wellShaped n -> wellShaped (updateSubItem v n).
Proof.
  rewrite updateSubItem_unfold. unfold wellShaped; simpl.
  destruct (itemType n); intros [H1 H2]; split; auto.
  - rewrite H1. reflexivity.
  - destruct H1 as [l ->]. simpl. eauto.
Qed.

Lemma wellShaped_editTarget u x : wellShaped x -> wellShaped (editTarget u x).
Proof.
  unfold wellShaped, editTarget; simpl.
  destruct (itemType x); intros [H1 H2]; split; eauto.
Qed.

Lemma wellShaped_editAncestor x subs subs' :
  subItems x = Some subs -> wellShaped x -> wellShaped (editAncestor x subs').
Proof.
  unfold wellShaped, editAncestor; simpl. intros Hs.
  destruct (itemType x); intros [H1 H2]; [congruence|]. split; eauto.
Qed.

Lemma Forall_nodes_split (Q : FileOrFolder -> Prop) (before : list FileOrFolder) x after :
  Forall Q (nodes (before ++ x :: after)) <->
  Forall Q (nodes before) /\ Q x /\ Forall Q (descendants x) /\ Forall Q (nodes after).
Proof.
  rewrite nodes_app, nodes_cons, Forall_app, List.Forall_cons_iff, Forall_app.
  tauto.
Qed.

Lemma EditedAlong_wellShaped u ps item items items' :
  EditedAlong u ps item items items' ->
  Forall wellShaped (nodes items) -> Forall wellShaped (nodes items').
Proof.
  induction 1 as [before x after|before x after subs subs' item ps Hs _ IH];
    rewrite !Forall_nodes_split; intros (Hb & Hx & Hd & Ha).
  - split; [exact Hb|]. split; [apply wellShaped_editTarget, Hx|].
    split; [|exact Ha]. rewrite descendants_editTarget.
    destruct (itemType x); [exact Hd|].
    apply List.Forall_forall. intros n' Hn'.
    apply in_map_iff in Hn' as (n & <- & Hn).
    apply wellShaped_updateSubItem. rewrite List.Forall_forall in Hd. auto.
  - split; [exact Hb|]. split; [eapply wellShaped_editAncestor; eassumption|].
    split; [|exact Ha]. unfold descendants in *. rewrite Hs in Hd. simpl in *.
    apply IH, Hd.
Qed.

Lemma all_viewable_updateSubItems (l : list FileOrFolder) :
  forallb (fun child => view (permissions child)) (updateSubItems l true) = true.
Proof.
  induction l as [|x l IH]; [reflexivity|]. simpl.
  rewrite updateSubItem_unfold; simpl. exact IH.
Qed.

Lemma none_viewable_updateSubItems (l : list FileOrFolder) :
  existsb (fun child => view (permissions child)) (updateSubItems l false) = false.
Proof.
  induction l as [|x l IH]; [reflexivity|]. simpl.
  rewrite updateSubItem_unfold; simpl. exact IH.
Qed.

Lemma uniform_view_not_partial v (l : list FileOrFolder) :
  existsb (fun child => view (permissions child)) (updateSubItems l v)
  && negb (forallb (fun child => view (permissions child)) (updateSubItems l v)) = false.
Proof.
  destruct v.
  - rewrite all_viewable_updateSubItems. apply andb_false_r.
  - rewrite none_viewable_updateSubItems. reflexivity.
Qed.

Lemma partialViewConsistent_updateSubItem v n :
  partialViewConsistent (updateSubItem v n).
Proof.
  rewrite updateSubItem_unfold. unfold partialViewConsistent; simpl.
  destruct (itemType n); [reflexivity|]. f_equal. symmetry.
  destruct (subItems n) as [l|]; simpl; [apply uniform_view_not_partial|reflexivity].
Qed.

Lemma partialViewConsistent_editTarget u x : partialViewConsistent (editTarget u x).
Proof.
  unfold partialViewConsistent, editTarget; simpl.
  destruct (itemType x); [reflexivity|]. simpl. f_equal. symmetry.
  apply uniform_view_not_partial.
Qed.

Lemma EditedAlong_partialView u ps item items items' :
  EditedAlong u ps item items items' ->
  Forall wellShaped (nodes items) ->
  Forall partialViewConsistent (nodes items) ->
  Forall partialViewConsistent (nodes items').
Proof.
  induction 1 as [before x after|before x after subs subs' item ps Hs _ IH];
    rewrite !Forall_nodes_split; intros (Wb & Wx & Wd & Wa) (Hb & Hx & Hd & Ha).
  - split; [exact Hb|]. split; [apply partialViewConsistent_editTarget|].
    split; [|exact Ha]. rewrite descendants_editTarget.
    destruct (itemType x); [exact Hd|].
    apply List.Forall_forall. intros n' Hn'.
    apply in_map_iff in Hn' as (n & <- & Hn).
    apply partialViewConsistent_updateSubItem.
  - split; [exact Hb|]. split.
    + unfold partialViewConsistent, editAncestor; simpl.
      unfold wellShaped in Wx. rewrite Hs in Wx.
      destruct (itemType x); [destruct Wx; discriminate|reflexivity].
    + split; [|exact Ha]. unfold descendants in *. rewrite Hs in Wd, Hd. simpl in *.
      apply IH; assumption.
Qed.

Lemma ids_after_edit st targetId newPermissions :
  List.map id (nodes (data (updatePermissions st targetId newPermissions))) =
  List.map id (nodes (data st)).
Proof.
  unfold updatePermissions.
  destruct (findItemAndParents (data st) targetId []) as [[item ps]|]; [|reflexivity].
  apply ids_updateItemInTree.
Qed.


Lemma edit_keeps_invariants st targetId newPermissions :
  NoDup (List.map id (nodes (data st))) ->
  Forall wellShaped (nodes (data st)) ->
  Forall partialViewConsistent (nodes (data st)) ->
  NoDup (List.map id (nodes (data (updatePermissions st targetId newPermissions))))
  /\ Forall wellShaped (nodes (data (updatePermissions st targetId newPermissions)))
  /\ Forall partialViewConsistent
            (nodes (data (updatePermissions st targetId newPermissions))).
Proof.
  intros Hnd W P. split; [rewrite ids_after_edit; exact Hnd|].
  destruct (findItemAndParents (data st) targetId []) as [[item ps]|] eqn:H.
  - pose proof (edit_along_path st targetId newPermissions item ps Hnd H) as E.
    split; [eapply EditedAlong_wellShaped|eapply EditedAlong_partialView]; eassumption.
  - rewrite (updatePermissions_not_found _ _ _ H). auto.
Qed.





(** X3: in a tree with unique ids whose folders, and only they, hold sub
    items, an edit keeps this shape, and it keeps the partial view of every
    folder equal to "some, not all, of its sub items are viewable" and the
    partial view of every document false. *)
Theorem edit_keeps_shape_and_partial_view st targetId newPermissions :
  NoDup (List.map id (nodes (data st))) ->
  Forall wellShaped (nodes (data st)) ->
  Forall partialViewConsistent (nodes (data st)) ->
  Forall wellShaped (nodes (data (updatePermissions st targetId newPermissions)))
  /\ Forall partialViewConsistent
            (nodes (data (updatePermissions st targetId newPermissions))).
Proof. intros Hnd W P. apply edit_keeps_invariants; assumption. Qed.


(** X5: when every override grants download only together with view, every
    node of the tree [buildTree] returns has download only with view, and so
    has every node of the tree after any sequence of edits. *)
Theorem built_tree_download_implies_view_through_edits items permissions0 fuel tree
    (edits : list (string * list string)) :
  Forall (fun p => implb (canDownload p) (canView p) = true) permissions0 ->
  buildTree fuel items permissions0 None = Some tree ->
  Forall (fun n => downloadImpliesView n = true)
         (nodes (data (updatePermissionsAll
                         {| data := tree; pendingChanges := ∅ |} edits))).
Proof.
  intros Hp Hb. apply edits_preserve_download_implies_view. simpl.
  eapply buildTree_download_implies_view; eassumption.
Qed.

(** ** The collected entries and the new tree *)

Lemma fold_insert_lookup_notin {A : Type} (key : A -> string)
    (entry : A -> PermissionEntry) (l : list A) :
  forall (changes : ItemPermission) (k : string),
    ~ In k (List.map key l) ->
    fold_left (fun acc a => <[key a := entry a]> acc) l changes !! k = changes !! k.
Proof.
  induction l as [|a l IH]; intros changes k Hk; simpl; [reflexivity|].
  rewrite IH by (intros H; apply Hk; right; exact H).
  apply lookup_insert_ne. intros E. apply Hk. left; exact E.
Qed.

Lemma fold_insert_lookup_in {A : Type} (key : A -> string)
    (entry : A -> PermissionEntry) (l : list A) :
  forall (changes : ItemPermission) (a : A),
    NoDup (List.map key l) -> In a l ->
    fold_left (fun acc b => <[key b := entry b]> acc) l changes !! key a =
    Some (entry a).
Proof.
  induction l as [|b l IH]; intros changes a Hnd Ha; simpl; [destruct Ha|].
  simpl in Hnd. apply NoDup_cons in Hnd as [Hb Hnd].
  destruct Ha as [->|Ha].
  - rewrite fold_insert_lookup_notin by (rewrite <- list_elem_of_In; exact Hb).
    apply lookup_insert_eq.
  - apply IH; assumption.
Qed.

(** The walk of [collectSubItemChanges] writes one entry per node, in the
    order of [nodes]. *)
Lemma collectSubItem_flat u sub :
  forall changes : ItemPermission,
    collectSubItem u sub changes =
    fold_left (fun acc n => <[id n := subEntry u n]> acc) (nodesOf sub) changes.
Proof.
  induction sub as [i n subs p t d IH] using FileOrFolder_nested_ind.
  intros changes. simpl. destruct subs as [l|]; [|reflexivity]. simpl in IH.
  change (subEntry u (mkFileOrFolder i n (Some l) p t d)) with
    {| entry_view := upd_view u;
       entry_download := download p && upd_view u;
       entry_itemType := t |}.
  generalize (<[i := {| entry_view := upd_view u;
                        entry_download := download p && upd_view u;
                        entry_itemType := t |}]> changes).
  induction IH as [|x l Hx _ IHl]; intros c; simpl; [reflexivity|].
  rewrite fold_left_app, <- Hx. apply IHl.
Qed.

Lemma collectSubItemChanges_flat u subs (changes : ItemPermission) :
  collectSubItemChanges u subs changes =
  fold_left (fun acc n => <[id n := subEntry u n]> acc)
            (nodes (or_empty subs)) changes.
Proof.
  destruct subs as [l|]; [|reflexivity]. simpl. revert changes.
  induction l as [|x l IHl]; intros c; simpl; [reflexivity|].
  unfold nodes; simpl. rewrite fold_left_app, <- collectSubItem_flat. apply IHl.
Qed.

Lemma subEntry_entryOf u n :
  subEntry u n = entryOf (updateSubItem (upd_view u) n).
Proof. rewrite updateSubItem_unfold. reflexivity. Qed.

(** In a tree with unique ids, the ids of the ancestors, of the target and
    of its descendants are all different. *)
Lemma FoundAt_NoDup_path targetId items item ps :
  FoundAt targetId items item ps ->
  NoDup (List.map id (nodes items)) ->
  NoDup (List.map id (ps ++ item :: descendants item)).
Proof.
  induction 1 as [before x after Hb Hx|before x after subs item ps Hb Hx Hs Hf IH];
    intros Hnd; destruct (NoDup_ids_split _ _ _ Hnd) as (Hd & Hxd & _); simpl.
  - apply NoDup_cons. split; [rewrite list_elem_of_In; exact Hxd|exact Hd].
  - assert (Ed : descendants x = nodes subs) by (unfold descendants; rewrite Hs; reflexivity).
    rewrite Ed in *. apply NoDup_cons. split; [|apply IH, Hd].
    rewrite list_elem_of_In. intros Hin. apply Hxd.
    apply in_map_iff in Hin as (q & <- & Hq). apply in_map.
    destruct (FoundAt_In _ _ _ _ Hf) as [Hitem Hps].
    apply in_app_or in Hq as [Hq|[<-|Hq]].
    + rewrite List.Forall_forall in Hps. apply Hps, Hq.
    + exact Hitem.
    + eapply In_nodes_descendants; eassumption.
Qed.

(** The parent of the target holds the target among sub items with other
    ids, and nothing below it has the id of an ancestor. *)
Lemma FoundAt_last_parent targetId items item ps :
  FoundAt targetId items item ps ->
  NoDup (List.map id (nodes items)) ->
  forall p, last ps = Some p ->
    exists subs,
      subItems p = Some subs
      /\ FoundAt targetId subs item []
      /\ NoDup (List.map id (nodes subs))
      /\ (forall n, In n (nodes subs) -> ~ In (id n) (List.map id ps)).
Proof.
  induction 1 as [before x after Hb Hx|before x after subs item ps Hb Hx Hs Hf IH];
    intros Hnd p Hp; [discriminate|].
  destruct (NoDup_ids_split _ _ _ Hnd) as (Hd & Hxd & _).
  assert (Ed : descendants x = nodes subs) by (unfold descendants; rewrite Hs; reflexivity).
  rewrite Ed in *.
  destruct ps as [|q ps].
  - injection Hp as <-. exists subs. repeat split; auto.
    intros n Hn [E|[]]. apply Hxd. rewrite E. apply in_map, Hn.
  - change (last (q :: ps) = Some p) in Hp.
    destruct (IH Hd p Hp) as (sp & Hsp & Hfp & Hndp & Hout).
    exists sp. repeat split; auto.
    intros n Hn [E|Hin]; [|exact (Hout n Hn Hin)].
    apply Hxd. rewrite E. apply in_map.
    destruct (FoundAt_In _ _ _ _ Hf) as [_ Hps]. rewrite List.Forall_forall in Hps.
    apply (In_nodes_descendants p); [apply Hps|].
    + apply last_Some in Hp as (l' & ->). apply in_or_app. right. left; reflexivity.
    + unfold descendants. rewrite Hsp. exact Hn.
Qed.

(** With the target among sub items of other ids, the views of the updated
    sub items are the views [collectChanges] reads for the parent. *)
Lemma EditedAlong_here_views u item (subs subs' : list FileOrFolder) :
  EditedAlong u [] item subs subs' ->
  NoDup (List.map id (nodes subs)) ->
  existsb (fun child => view (permissions child)) subs' =
  existsb (fun subItem => if String.eqb (id subItem) (id item) then upd_view u
                          else view (permissions subItem)) subs.
Proof.
  intros H Hnd. inversion H as [before x after E1 E2 E3 E4|]; subst.
  destruct (NoDup_ids_split _ _ _ Hnd) as (_ & _ & Hsplit).
  destruct (Hsplit (id item) (or_introl eq_refl)) as [Hb Ha].
  assert (Hsame : forall l, ~ In (id item) (List.map id (nodes l)) ->
            existsb (fun subItem => if String.eqb (id subItem) (id item) then upd_view u
                                    else view (permissions subItem)) l =
            existsb (fun child => view (permissions child)) l).
  { intros l Hl. induction l as [|s l IHl]; [reflexivity|]. simpl.
    rewrite nodes_cons in Hl. simpl in Hl.
    destruct (String.eqb_spec (id s) (id item)) as [E|E]; [exfalso; apply Hl; left; exact E|].
    f_equal. apply IHl. intros Hin. apply Hl. right.
    rewrite map_app. apply in_or_app. right; exact Hin. }
  rewrite !existsb_app. simpl. rewrite String.eqb_refl, !Hsame by assumption.
  reflexivity.
Qed.

Section CollectedLookups.
Variable u : UpdatedPermissions.
Variable item : FileOrFolder.
Variable ps : list FileOrFolder.
Hypothesis path_ids : NoDup (List.map id (ps ++ item :: descendants item)).

Lemma path_ids_facts :
  NoDup (List.map id ps)
  /\ ~ In (id item) (List.map id ps)
  /\ (forall n, In n (descendants item) -> ~ In (id n) (List.map id ps))
  /\ ~ In (id item) (List.map id (descendants item))
  /\ NoDup (List.map id (descendants item)).
Proof using path_ids.
  pose proof path_ids as H. rewrite map_app in H. simpl in H.
  apply NoDup_app in H as (H1 & H2 & H3). apply NoDup_cons in H3 as (H4 & H5).
  split; [exact H1|]. split.
  - intros Hin. apply list_elem_of_In in Hin. apply (H2 _ Hin). left.
  - split; [|split; [rewrite <- list_elem_of_In; exact H4|exact H5]].
    intros n Hn Hin. apply list_elem_of_In in Hin. apply (H2 _ Hin). right.
    apply list_elem_of_In, in_map, Hn.
Qed.

Lemma collectChanges_lookup_below (k : string) :
  ~ In k (List.map id ps) ->
  collectChanges u item ps !! k =
  fold_left (fun acc n => <[id n := subEntry u n]> acc) (descendants item)
            ({[ id item := {| entry_view := upd_view u;
                              entry_download := upd_download u;
                              entry_itemType := itemType item |} ]} : ItemPermission)
  !! k.
Proof using Type.
  intros Hk. unfold collectChanges. rewrite collectSubItemChanges_flat.
  destruct (upd_view u); rewrite fold_insert_lookup_notin; try reflexivity; auto.
  rewrite map_rev, <- in_rev. exact Hk.
Qed.

Lemma collectChanges_lookup_target :
  collectChanges u item ps !! id item =
  Some {| entry_view := upd_view u; entry_download := upd_download u;
          entry_itemType := itemType item |}.
Proof using path_ids.
  destruct path_ids_facts as (_ & H2 & _ & H4 & _).
  rewrite collectChanges_lookup_below by exact H2.
  rewrite fold_insert_lookup_notin by exact H4. apply lookup_singleton_eq.
Qed.

Lemma collectChanges_lookup_descendant n :
  In n (descendants item) ->
  collectChanges u item ps !! id n = Some (subEntry u n).
Proof using path_ids.
  intros Hn. destruct path_ids_facts as (_ & _ & H3 & _ & H5).
  rewrite collectChanges_lookup_below by (apply H3, Hn).
  apply (fold_insert_lookup_in id (subEntry u)); assumption.
Qed.

Lemma collectChanges_lookup_parent_on p :
  upd_view u = true -> In p ps ->
  collectChanges u item ps !! id p =
  Some {| entry_view := true; entry_download := download (permissions p);
          entry_itemType := itemType p |}.
Proof using path_ids.
  intros Hv Hp. destruct path_ids_facts as (H1 & _).
  unfold collectChanges. rewrite Hv.
  apply (fold_insert_lookup_in id
           (fun parent => {| entry_view := true;
                             entry_download := download (permissions parent);
                             entry_itemType := itemType parent |})); assumption.
Qed.

Lemma collectChanges_lookup_parent_off p :
  upd_view u = false -> In p ps ->
  collectChanges u item ps !! id p =
  Some {| entry_view := or_false (parentSomeViewable u item p);
          entry_download :=
            and_or_false (download (permissions p)) (parentSomeViewable u item p);
          entry_itemType := itemType p |}.
Proof using path_ids.
  intros Hv Hp. destruct path_ids_facts as (H1 & _).
  unfold collectChanges. rewrite Hv.
  apply (fold_insert_lookup_in id
           (fun parent =>
              {| entry_view := or_false (parentSomeViewable u item parent);
                 entry_download :=
                   and_or_false (download (permissions parent))
                                (parentSomeViewable u item parent);
                 entry_itemType := itemType parent |})).
  - rewrite map_rev. apply NoDup_ListNoDup, List.NoDup_rev, NoDup_ListNoDup, H1.
  - apply in_rev in Hp. exact Hp.
Qed.
End CollectedLookups.

Lemma last_map {A B : Type} (f : A -> B) (l : list A) (y : B) :
  last (List.map f l) = Some y -> exists x, last l = Some x /\ y = f x.
Proof.
  induction l as [|a [|b l] IH]; simpl; [discriminate| |].
  - intros [= <-]. eauto.
  - intros H. apply IH in H. exact H.
Qed.

Lemma last_In {A : Type} (l : list A) (x : A) : last l = Some x -> In x l.
Proof.
  intros H. apply last_Some in H as (l' & ->). apply in_or_app. right. left; reflexivity.
Qed.

(** With the new view on, every updated ancestor is viewable. *)
Lemma ancestors_viewable targetId items item ps u :
  FoundAt targetId items item ps ->
  upd_view u = true ->
  Forall (fun p => view (permissions (updateItem targetId ps u p)) = true) ps.
Proof.
  intros H Hv.
  pose proof (FoundAt_update targetId ps u items item ps H (Forall_isParent_self ps)) as H'.
  pose proof (FoundAt_leadsTo _ _ _ _ H') as Hl.
  pose proof (FoundAt_parents_id _ _ _ _ H) as Hne.
  assert (Hall : Forall (fun p' => view (permissions p') = true)
                        (List.map (updateItem targetId ps u) ps)).
  { apply (viewable_up _ _ Hl).
    - apply List.Forall_forall. intros p' Hp'.
      apply in_map_iff in Hp' as (p & <- & Hp).
      rewrite List.Forall_forall in Hne.
      rewrite updateItem_parent by (auto using isParent_self). reflexivity.
    - rewrite permissions_updated_target by (eapply FoundAt_id, H). exact Hv. }
  apply List.Forall_forall. intros p Hp. rewrite List.Forall_forall in Hall.
  apply Hall, in_map, Hp.
Qed.

Lemma parent_entry_agrees_off targetId items item ps u p :
  FoundAt targetId items item ps ->
  NoDup (List.map id (nodes items)) ->
  last ps = Some p ->
  {| entry_view := or_false (parentSomeViewable u item p);
     entry_download :=
       and_or_false (download (permissions p)) (parentSomeViewable u item p);
     entry_itemType := itemType p |} =
  entryOf (updateItem targetId ps u p).
Proof.
  intros H Hnd Hp.
  destruct (FoundAt_last_parent _ _ _ _ H Hnd p Hp) as (subs & Hs & Hf & Hnds & Hout).
  pose proof (FoundAt_parents_id _ _ _ _ H) as Hne.
  rewrite List.Forall_forall in Hne.
  pose proof (last_In _ _ Hp) as Hin.
  rewrite updateItem_parent by (auto using isParent_self).
  rewrite Hs. simpl.
  assert (E : EditedAlong u [] item subs (updateItemInTree targetId ps u subs)).
  { apply edit_along_path_gen; auto.
    intros n Hn Hpar. exfalso. apply (Hout n Hn), isParent_In_ids, Hpar. }
  pose proof (EditedAlong_here_views u item subs _ E Hnds) as Hv.
  unfold entryOf, parentSomeViewable, aggregate. simpl. rewrite Hs. simpl.
  rewrite Hv. unfold and_or_false. simpl.
  destruct (download (permissions p)); reflexivity.
Qed.

(** X6: in a tree with unique ids, the entry collected for the target is the
    state of the target in the new tree; for a target folder so are the
    entries of all its descendants; so are the entries of all the ancestors
    when the new view is on, and the entry of the parent of the target in
    every case. *)
Theorem collected_entries_agree_with_tree st targetId newPermissions item ps :
  NoDup (List.map id (nodes (data st))) ->
  findItemAndParents (data st) targetId [] = Some (item, ps) ->
  exists diff item' ps',
    editDiff st targetId newPermissions = Some diff
    /\ findItemAndParents (data (updatePermissions st targetId newPermissions))
                          targetId [] = Some (item', ps')
    /\ diff !! id item' = Some (entryOf item')
    /\ (itemType item = DATAROOM_FOLDER ->
        Forall (fun n' => diff !! id n' = Some (entryOf n')) (descendants item'))
    /\ (upd_view (appliedFlags newPermissions item) = true ->
        Forall (fun p' => diff !! id p' = Some (entryOf p')) ps')
    /\ (forall p', last ps' = Some p' -> diff !! id p' = Some (entryOf p')).
Proof.
  intros Hnd H.
  pose proof (found_after_edit st targetId newPermissions item ps H) as H'.
  set (u := appliedFlags newPermissions item) in *.
  exists (collectChanges u item ps). eexists _, _.
  split; [unfold editDiff; rewrite H; reflexivity|]. split; [exact H'|].
  apply FoundAt_iff in H.
  pose proof (FoundAt_id _ _ _ _ H) as E.
  pose proof (FoundAt_NoDup_path _ _ _ _ H Hnd) as Hpath.
  assert (Hon : upd_view u = true ->
                forall p, In p ps ->
                  collectChanges u item ps !! id (updateItem targetId ps u p) =
                  Some (entryOf (updateItem targetId ps u p))).
  { intros Hv p Hp. rewrite id_updateItem.
    rewrite (collectChanges_lookup_parent_on u item ps Hpath p Hv Hp). f_equal.
    pose proof (ancestors_viewable _ _ _ _ u H Hv) as Hview.
    rewrite List.Forall_forall in Hview. specialize (Hview p Hp).
    pose proof (FoundAt_parents_id _ _ _ _ H) as Hne.
    rewrite List.Forall_forall in Hne.
    revert Hview. rewrite updateItem_parent by (auto using isParent_self).
    unfold entryOf, aggregate. simpl. intros ->.
    rewrite andb_true_r. reflexivity. }
  split; [|split; [|split]].
  - rewrite id_updateItem, updateItem_target by exact E.
    apply (collectChanges_lookup_target u item ps Hpath).
  - intros T. rewrite updateItem_target by exact E.
    rewrite descendants_editTarget, T.
    apply List.Forall_forall. intros n' Hn'.
    apply in_map_iff in Hn' as (n & <- & Hn).
    rewrite <- subEntry_entryOf.
    replace (id (updateSubItem (upd_view u) n)) with (id n)
      by (rewrite updateSubItem_unfold; reflexivity).
    apply (collectChanges_lookup_descendant u item ps Hpath n Hn).
  - intros Hv. apply List.Forall_forall. intros p' Hp'.
    apply in_map_iff in Hp' as (p & <- & Hp). apply Hon; assumption.
  - intros p' Hp'. apply last_map in Hp' as (p & Hp & ->).
    destruct (upd_view u) eqn:Hv; [apply Hon; [reflexivity|apply last_In, Hp]|].
    rewrite id_updateItem.
    rewrite (collectChanges_lookup_parent_off u item ps Hpath p Hv (last_In _ _ Hp)).
    f_equal. eapply parent_entry_agrees_off; eassumption.
Qed.

(** ** More on [findItemAndParents] *)

Lemma FoundAt_first targetId items item ps :
  FoundAt targetId items item ps ->
  exists before after,
    nodes items = before ++ item :: after
    /\ ~ In targetId (List.map id before).
Proof.
  induction 1 as [before x after Hb Hx|before x after subs item ps Hb Hx Hs _ IH];
    rewrite nodes_app, nodes_cons.
  - exists (nodes before), (descendants x ++ nodes after). auto.
  - destruct IH as (pre & post & Hn & Hpre).
    unfold descendants. rewrite Hs. simpl. rewrite Hn.
    exists (nodes before ++ x :: pre), (post ++ nodes after). split.
    + repeat (rewrite <- app_assoc; simpl). reflexivity.
    + rewrite map_app. simpl. intros Hin.
      apply in_app_or in Hin as [Hin|[Hin|Hin]]; auto.
Qed.

(** X7: [findItemAndParents] returns null exactly when no node of the tree,
    at any depth, has the id. *)
Theorem search_fails_iff_id_absent items targetId acc :
  findItemAndParents items targetId acc = None <->
  ~ In targetId (List.map id (nodes items)).
Proof.
  rewrite findItemAndParents_prefixed, <- findItemAndParents_none.
  destruct (findItemAndParents items targetId []); simpl; split; congruence.
Qed.

(** X8: what [findItemAndParents] returns is the first node of the walk with
    the id; the parents it returns are the given ones followed by the
    ancestors of that node, outermost first: the first is an item of the
    list, each holds the next among its sub items, the last holds the node,
    and none of them has the id. *)
Theorem search_returns_first_match_and_its_path items targetId acc item ps :
  findItemAndParents items targetId acc = Some (item, ps) ->
  id item = targetId
  /\ (exists before after,
        nodes items = before ++ item :: after
        /\ ~ In targetId (List.map id before))
  /\ exists ancestors,
       ps = acc ++ ancestors
       /\ In (hd item ancestors) items
       /\ leadsTo ancestors item
       /\ Forall (fun p => id p <> targetId) ancestors.
Proof.
  rewrite findItemAndParents_prefixed.
  destruct (findItemAndParents items targetId []) as [[it qs]|] eqn:H; [|discriminate].
  simpl. unfold prefixed; simpl. intros [= <- <-].
  apply FoundAt_iff in H.
  split; [eapply FoundAt_id, H|]. split; [eapply FoundAt_first, H|].
  exists qs. split; [reflexivity|]. split; [eapply FoundAt_hd, H|].
  split; [eapply FoundAt_leadsTo, H|eapply FoundAt_parents_id, H].
Qed.

(** ** More on the pending changes *)

(** X9: an edit of an existing target merges its entries over the pending
    ones: an id the edit collected gets the new entry, whatever was pending
    for it, and every other id keeps the entry it had. *)
Theorem edit_merges_last_write_wins st targetId newPermissions diff (k : string) :
  editDiff st targetId newPermissions = Some diff ->
  pendingChanges (updatePermissions st targetId newPermissions) !! k =
  match diff !! k with
  | Some e => Some e
  | None => pendingChanges st !! k
  end.
Proof.
  intros H. rewrite pendingChanges_after_edit, H, lookup_union.
  destruct (diff !! k), (pendingChanges st !! k); reflexivity.
Qed.

Lemma edit_keeps_entries_download_implies_view st targetId newPermissions :
  map_Forall (fun _ e => entryDownloadImpliesView e = true) (pendingChanges st) ->
  map_Forall (fun _ e => entryDownloadImpliesView e = true)
             (pendingChanges (updatePermissions st targetId newPermissions)).
Proof.
  intros H. rewrite pendingChanges_after_edit.
  destruct (editDiff st targetId newPermissions) as [diff|] eqn:Hd; [|exact H].
  intros k e Hk. apply lookup_union_Some_raw in Hk as [Hk|[_ Hk]].
  - eapply collected_entries_download_implies_view; eassumption.
  - eapply H, Hk.
Qed.

(** X10: no sequence of edits puts an entry with download and without view
    among the pending changes: when the pending entries all have download
    only with view (an empty map, for one), they still do after the edits,
    whatever the tree. *)
Theorem pending_entries_keep_download_implies_view
    (edits : list (string * list string)) st :
  map_Forall (fun _ e => entryDownloadImpliesView e = true) (pendingChanges st) ->
  map_Forall (fun _ e => entryDownloadImpliesView e = true)
             (pendingChanges (updatePermissionsAll st edits)).
Proof.
  revert st. induction edits as [|[t p] edits IH]; intros st H; simpl; [exact H|].
  apply IH, edit_keeps_entries_download_implies_view, H.
Qed.


(** ** When [buildTree] returns *)

Lemma mapM_weaken {A B : Type} (f g : A -> option B) (l : list A) k :
  (forall x y, In x l -> f x = Some y -> g x = Some y) ->
  mapM f l = Some k -> mapM g l = Some k.
Proof.
  revert k. induction l as [|x l IH]; intros k H; simpl; [auto|].
  destruct (f x) as [y|] eqn:Hy; simpl; [|discriminate].
  destruct (mapM f l) as [k'|] eqn:Hk; simpl; [|discriminate].
  intros [= <-]. rewrite (H x y (or_introl eq_refl) Hy). simpl.
  rewrite (IH k'); [reflexivity| |reflexivity].
  intros z w Hz. apply H. right; exact Hz.
Qed.

Lemma mapM_fails {A B : Type} (f : A -> option B) (l : list A) x :
  In x l -> f x = None -> mapM f l = None.
Proof.
  induction l as [|a l IH]; intros Hin Hx; [destruct Hin|]. simpl.
  destruct Hin as [->|Hin]; [rewrite Hx; reflexivity|].
  rewrite (IH Hin Hx). destruct (f a); reflexivity.
Qed.

(** A larger bound gives the same tree. *)
Lemma buildTree_fuel_S items permissions0 fuel :
  forall parentId tree,
    buildTree fuel items permissions0 parentId = Some tree ->
    buildTree (S fuel) items permissions0 parentId = Some tree.
Proof.
  induction fuel as [|fuel IH]; intros parentId tree H; [discriminate|].
  rewrite buildTree_S in H. rewrite buildTree_S.
  destruct (mapM _ (foldersAt items parentId)) as [folders|] eqn:Hf in H;
    [|discriminate H].
  assert (Hf' : mapM
                  (fun folder =>
                     subItems ← buildTree (S fuel) items permissions0
                                          (Some (raw_id folder));
                     Some (buildFolder permissions0 folder subItems))
                  (foldersAt items parentId) = Some folders).
  { eapply mapM_weaken; [|exact Hf]. intros folder y _ Hy. cbv beta in Hy |- *.
    destruct (buildTree fuel items permissions0 (Some (raw_id folder))) as [subs|] eqn:Hs;
      [|discriminate Hy].
    rewrite (IH _ _ Hs). exact Hy. }
  rewrite Hf'. exact H.
Qed.

Lemma buildTree_fuel_le items permissions0 fuel fuel' parentId tree :
  fuel <= fuel' ->
  buildTree fuel items permissions0 parentId = Some tree ->
  buildTree fuel' items permissions0 parentId = Some tree.
Proof.
  induction 1 as [|m _ IH]; [auto|]. intros H. apply buildTree_fuel_S, IH, H.
Qed.

Lemma buildTree_fuel_unique items permissions0 fuel fuel' parentId tree tree' :
  buildTree fuel items permissions0 parentId = Some tree ->
  buildTree fuel' items permissions0 parentId = Some tree' ->
  tree = tree'.
Proof.
  intros H H'.
  apply (buildTree_fuel_le _ _ _ (Nat.max fuel fuel')) in H; [|lia].
  apply (buildTree_fuel_le _ _ _ (Nat.max fuel fuel')) in H'; [|lia].
  congruence.
Qed.

Lemma foldersAt_allFolders items parentId f :
  In f (foldersAt items parentId) -> In f (allFolders items).
Proof.
  unfold foldersAt, allFolders. rewrite !filter_In. intros [Hin H].
  apply andb_prop in H as [_ H]. auto.
Qed.

Lemma Level_root_inv items n : Level items n None -> n = 0.
Proof. inversion 1; reflexivity. Qed.

(** With unique folder ids, a folder is entered at one depth only. *)
Lemma Level_unique items :
  NoDup (List.map raw_id (allFolders items)) ->
  forall n m a, Level items n (Some a) -> Level items m (Some a) -> n = m.
Proof.
  intros Hnd. induction n as [|n IH]; intros m a Hn Hm; [inversion Hn|].
  inversion Hn as [|n0 pid f Hl Hf E1 E2]; subst.
  inversion Hm as [|m0 pid' g Hl' Hg E1 E2]; subst.
  assert (g = f) as ->.
  { apply (NoDup_map_injective raw_id (allFolders items)); eauto using foldersAt_allFolders. }
  apply foldersAt_In in Hf as (_ & Hpf & _). apply foldersAt_In in Hg as (_ & Hpg & _).
  assert (pid' = pid) as -> by congruence.
  f_equal. destruct pid as [b|].
  - eapply IH; eassumption.
  - apply Level_root_inv in Hl, Hl'. congruence.
Qed.

Lemma Reaches_Level items path parentId :
  Reaches items path parentId ->
  Level items (length path) parentId
  /\ forall g, In g path ->
       In g (allFolders items)
       /\ exists d, d <= length path /\ Level items d (Some (raw_id g)).
Proof.
  induction 1 as [|path pid f _ [IH1 IH2] Hf]; simpl.
  - split; [constructor|intros g []].
  - assert (Hl : Level items (S (length path)) (Some (raw_id f)))
      by (econstructor; eassumption).
    split; [exact Hl|]. intros g [<-|Hg].
    + split; [eapply foldersAt_allFolders, Hf|]. exists (S (length path)). auto.
    + destruct (IH2 g Hg) as (Hin & d & Hd & HL). split; [exact Hin|].
      exists d. split; [lia|exact HL].
Qed.

Lemma Reaches_NoDup items path parentId :
  NoDup (List.map raw_id (allFolders items)) ->
  Reaches items path parentId ->
  List.NoDup path /\ incl path (allFolders items).
Proof.
  intros Hnd. induction 1 as [|path pid f Hr [IH1 IH2] Hf].
  - split; [constructor|intros g []].
  - destruct (Reaches_Level _ _ _ Hr) as [Hl Hpath]. split.
    + constructor; [|exact IH1]. intros Hin.
      destruct (Hpath f Hin) as (_ & d & Hd & HL).
      assert (HS : Level items (S (length path)) (Some (raw_id f)))
        by (econstructor; eassumption).
      pose proof (Level_unique items Hnd _ _ _ HL HS). lia.
    + intros g [<-|Hg]; [eapply foldersAt_allFolders, Hf|apply IH2, Hg].
Qed.

Lemma Reaches_length items path parentId :
  NoDup (List.map raw_id (allFolders items)) ->
  Reaches items path parentId ->
  length path <= length (allFolders items).
Proof.
  intros Hnd Hr. destruct (Reaches_NoDup _ _ _ Hnd Hr) as [H1 H2].
  apply List.NoDup_incl_length; assumption.
Qed.

Lemma buildTree_total_unique_ids items permissions0 :
  NoDup (List.map raw_id (allFolders items)) ->
  forall k path parentId,
    Reaches items path parentId ->
    length path + k = length (allFolders items) ->
    exists tree, buildTree (S k) items permissions0 parentId = Some tree.
Proof.
  intros Hnd. induction k as [|k IH]; intros path parentId Hr Hlen;
    rewrite buildTree_S.
  - destruct (mapM_total
                (fun folder =>
                   subItems ← buildTree 0 items permissions0 (Some (raw_id folder));
                   Some (buildFolder permissions0 folder subItems))
                (fun _ => True) (foldersAt items parentId)) as (folders & -> & _).
    { intros f Hf. exfalso.
      pose proof (Reaches_length _ _ _ Hnd (reaches_below _ _ _ _ Hr Hf)) as Hle.
      simpl in Hle. lia. }
    destruct (mapM_total (levelDocument permissions0) (fun _ => True)
                (documentsAt items parentId)) as (documents & -> & _).
    { intros doc. apply documentsAt_levelDocument. }
    simpl. eauto.
  - destruct (mapM_total
                (fun folder =>
                   subItems ← buildTree (S k) items permissions0 (Some (raw_id folder));
                   Some (buildFolder permissions0 folder subItems))
                (fun _ => True) (foldersAt items parentId)) as (folders & -> & _).
    { intros f Hf.
      destruct (IH (f :: path) (Some (raw_id f))) as (subs & ->).
      - econstructor; eassumption.
      - simpl. lia.
      - simpl. eauto. }
    destruct (mapM_total (levelDocument permissions0) (fun _ => True)
                (documentsAt items parentId)) as (documents & -> & _).
    { intros doc. apply documentsAt_levelDocument. }
    simpl. eauto.
Qed.

(** X12: when the ids of the folders of the input are unique, [buildTree]
    called for the root returns a tree, whatever the parent links are (a
    cycle of parent links is never reached from the root): a depth of the
    number of folders plus one is enough, and every bound that gives a tree
    gives this one. *)
Theorem buildTree_returns_with_unique_folder_ids items permissions0 :
  NoDup (List.map raw_id (allFolders items)) ->
  exists tree,
    buildTree (S (length (allFolders items))) items permissions0 None = Some tree
    /\ forall fuel tree',
         buildTree fuel items permissions0 None = Some tree' -> tree' = tree.
Proof.
  intros Hnd.
  destruct (buildTree_total_unique_ids items permissions0 Hnd
              (length (allFolders items)) [] None) as (tree & Ht);
    [constructor|reflexivity|].
  exists tree. split; [exact Ht|].
  intros fuel tree' Ht'. eapply buildTree_fuel_unique; eassumption.
Qed.

Lemma buildTree_self_parent items permissions0 f :
  In f items -> raw_document f = None -> raw_parentId f = Some (raw_id f) ->
  forall fuel, buildTree fuel items permissions0 (Some (raw_id f)) = None.
Proof.
  intros Hin Hd Hp. induction fuel as [|fuel IH]; [reflexivity|].
  rewrite buildTree_S.
  assert (Hf : mapM
                 (fun folder =>
                    subItems ← buildTree fuel items permissions0 (Some (raw_id folder));
                    Some (buildFolder permissions0 folder subItems))
                 (foldersAt items (Some (raw_id f))) = None).
  { apply (mapM_fails _ _ f); [|rewrite IH; reflexivity].
    unfold foldersAt. apply filter_In. split; [exact Hin|].
    unfold has_document. rewrite Hp, Hd. simpl. rewrite String.eqb_refl. reflexivity. }
  rewrite Hf. reflexivity.
Qed.

(** X13: the recursion of [buildTree] does not end on a folder that is its
    own parent: the call for the id of such a folder returns for no depth,
    and neither does the call for the root when a folder of the root level
    has the same id. *)
Theorem buildTree_never_returns_on_self_parent items permissions0 f :
  In f items -> raw_document f = None -> raw_parentId f = Some (raw_id f) ->
  (forall fuel, buildTree fuel items permissions0 (Some (raw_id f)) = None)
  /\ (forall g, In g items -> raw_document g = None -> raw_parentId g = None ->
                raw_id g = raw_id f ->
                forall fuel, buildTree fuel items permissions0 None = None).
Proof.
  intros Hin Hd Hp. split; [apply buildTree_self_parent; assumption|].
  intros g Hg Hgd Hgp Hid [|fuel]; [reflexivity|].
  rewrite buildTree_S.
  assert (Hf : mapM
                 (fun folder =>
                    subItems ← buildTree fuel items permissions0 (Some (raw_id folder));
                    Some (buildFolder permissions0 folder subItems))
                 (foldersAt items None) = None).
  { apply (mapM_fails _ _ g).
    - unfold foldersAt. apply filter_In. split; [exact Hg|].
      unfold has_document. rewrite Hgp, Hgd. reflexivity.
    - rewrite Hid, buildTree_self_parent by assumption. reflexivity. }
  rewrite Hf. reflexivity.
Qed.

(** ** The toggles of a row and the request they send *)

Lemma existsb_Permutation {A : Type} (f : A -> bool) (l l' : list A) :
  Permutation l l' -> existsb f l = existsb f l'.
Proof.
  induction 1 as [|x l l' _ IH|x y l|l l' l'' _ IH1 _ IH2]; simpl.
  - reflexivity.
  - rewrite IH. reflexivity.
  - destruct (f x), (f y); reflexivity.
  - congruence.
Qed.

(** X14: sending back the toggles a row displays, in any order, requests the
    view and the download the row has; the key partialView that a partially
    viewable folder displays is ignored.  The row then keeps its view, and
    keeps its download when it has view. *)
Theorem displayed_toggles_request_current_state st (item : FileOrFolder)
    (value : list string) ps :
  Permutation value (toggleValue (permissions item)) ->
  findItemAndParents (data st) (id item) [] = Some (item, ps) ->
  requested value =
  {| upd_view := view (permissions item); upd_download := download (permissions item) |}
  /\ exists item' ps',
       findItemAndParents (data (handleValueChange st item value)) (id item) [] =
       Some (item', ps')
       /\ view (permissions item') = view (permissions item)
       /\ download (permissions item') =
          download (permissions item) && view (permissions item).
Proof.
  intros H Hf. assert (Hr : requested value =
    {| upd_view := view (permissions item);
       upd_download := download (permissions item) |}).
  { unfold requested, includes.
    rewrite !(existsb_Permutation _ _ _ H). unfold toggleValue.
    destruct (view (permissions item)), (download (permissions item)),
      (partialView (permissions item)) as [[|]|]; reflexivity. }
  split; [exact Hr|]. unfold handleValueChange.
  eexists _, _. split; [apply found_after_edit, Hf|].
  rewrite permissions_updated_target by reflexivity.
  unfold appliedFlags. rewrite Hr. simpl.
  destruct (view (permissions item)), (download (permissions item)); split; reflexivity.
Qed.

(** ** What an edit does to download *)

Lemma Touched_download targetId ps u universe x x' :
  Touched targetId ps u universe x x' ->
  download (permissions x') = true ->
  download (permissions x) = true \/ id x = targetId.
Proof.
  intros [->|[->|(-> & _)]].
  - destruct (String.eqb_spec (id x) targetId) as [E|E]; [auto|].
    destruct (isParent ps x) eqn:Hp.
    + rewrite updateItem_parent by assumption. simpl.
      intros H. apply andb_prop in H as [H _]. auto.
    + rewrite updateItem_other by assumption. simpl. auto.
  - auto.
  - rewrite updateSubItem_unfold. simpl. intros H. apply andb_prop in H as [H _]. auto.
Qed.

(** X15: an edit turns download on for no node but one with the target id:
    every other node that has download after the edit had it before. *)
Theorem edit_grants_download_to_target_only st targetId newPermissions :
  Forall2 (fun n n' => download (permissions n') = true ->
                       download (permissions n) = true \/ id n = targetId)
          (nodes (data st))
          (nodes (data (updatePermissions st targetId newPermissions))).
Proof.
  unfold updatePermissions.
  destruct (findItemAndParents (data st) targetId []) as [[item ps]|].
  - simpl. eapply Forall2_weaken; [|apply nodes_updateItemInTree].
    intros x x'. apply Touched_download.
  - apply Forall2_same. auto.
Qed.

(** X16: turning the view of a folder off and then on again loses the
    download of everything in it: after the request without any flag
    followed by the request of view alone, the folder and all its
    descendants are viewable and none has download, whatever they had. *)
Theorem view_off_then_on_loses_download st targetId item ps :
  findItemAndParents (data st) targetId [] = Some (item, ps) ->
  itemType item = DATAROOM_FOLDER ->
  exists item'' ps'',
    findItemAndParents
      (data (updatePermissions (updatePermissions st targetId [])
                               targetId ["view"%string]))
      targetId [] = Some (item'', ps'')
    /\ permissions item'' =
       {| view := true; download := false; partialView := Some false |}
    /\ List.map id (descendants item'') = List.map id (descendants item)
    /\ Forall (fun n => permissions n =
                        {| view := true; download := false;
                           partialView := Some false |})
              (descendants item'').
Proof.
  intros H T.
  pose proof (found_after_edit st targetId [] item ps H) as H1.
  pose proof (found_after_edit _ targetId ["view"%string] _ _ H1) as H2.
  eexists _, _. split; [exact H2|].
  assert (E : id item = targetId) by (apply FoundAt_iff in H; eapply FoundAt_id, H).
  set (u1 := appliedFlags [] item) in *.
  set (item1 := updateItem targetId ps u1 item) in *.
  set (ps1 := List.map (updateItem targetId ps u1) ps) in *.
  set (u2 := appliedFlags ["view"%string] item1) in *.
  assert (E1 : id item1 = targetId) by (unfold item1; rewrite id_updateItem; exact E).
  assert (T1 : itemType item1 = DATAROOM_FOLDER).
  { unfold item1. rewrite updateItem_target_folder by assumption. reflexivity. }
  assert (Hu1 : upd_view u1 = false).
  { unfold u1, appliedFlags, requested, includes. simpl.
    destruct (download (permissions item)); reflexivity. }
  assert (Hu2 : u2 = {| upd_view := true; upd_download := false |}).
  { unfold u2, appliedFlags, requested, includes. simpl.
    destruct (download (permissions item1)); reflexivity. }
  rewrite (updateItem_target_folder _ _ _ item1 E1 T1), Hu2.
  split; [reflexivity|]. unfold descendants at 1 3. simpl.
  unfold item1. rewrite (updateItem_target_folder _ _ _ item E T), Hu1. simpl.
  rewrite !nodes_updateSubItems. fold (descendants item). split.
  - rewrite !List.map_map. apply map_ext_Forall, List.Forall_forall.
    intros n _. rewrite !updateSubItem_unfold. reflexivity.
  - apply List.Forall_forall. intros n' Hn'.
    apply in_map_iff in Hn' as (n1 & <- & Hn1).
    apply in_map_iff in Hn1 as (n & <- & _).
    rewrite !updateSubItem_unfold. simpl. rewrite andb_false_r. reflexivity.
Qed.

(** ** A folder with a viewable sub item is viewable *)







(** ** Granting view hides nothing, revoking view reveals nothing *)

Lemma EditedAlong_view_on u ps item items items' :
  EditedAlong u ps item items items' ->
  upd_view u = true ->
  existsb (fun child => view (permissions child)) items' = true
  /\ Forall2 (fun n n' => view (permissions n) = true -> view (permissions n') = true)
             (nodes items) (nodes items').
Proof.
  intros H Hv.
  induction H as [before x after|before x after subs subs' item ps Hs _ [IH1 IH2]];
    rewrite !nodes_app, !nodes_cons, !existsb_app; simpl.
  - rewrite Hv, orb_true_r. split; [reflexivity|].
    apply Forall2_app; [apply Forall2_same; auto|].
    constructor; [auto|].
    apply Forall2_app; [|apply Forall2_same; auto].
    rewrite descendants_editTarget. destruct (itemType x).
    + apply Forall2_same; auto.
    + apply Forall2_map_self. intros n _ _. rewrite updateSubItem_unfold. exact Hv.
  - rewrite IH1, orb_true_r. split; [reflexivity|].
    apply Forall2_app; [apply Forall2_same; auto|].
    constructor; [auto|].
    apply Forall2_app; [|apply Forall2_same; auto].
    unfold descendants. rewrite Hs. simpl. exact IH2.
Qed.

Lemma EditedAlong_view_off u ps item items items' :
  EditedAlong u ps item items items' ->
  upd_view u = false ->
  Forall viewCoversSubItems (nodes items) ->
  (existsb (fun child => view (permissions child)) items' = true ->
   existsb (fun child => view (permissions child)) items = true)
  /\ Forall2 (fun n n' => view (permissions n') = true -> view (permissions n) = true)
             (nodes items) (nodes items').
Proof.
  intros H Hv.
  induction H as [before x after|before x after subs subs' item ps Hs _ IH];
    rewrite !Forall_nodes_split; intros (Vb & Vx & Vd & Va);
    rewrite !nodes_app, !nodes_cons, !existsb_app; simpl.
  - rewrite Hv. split.
    + intros H. apply orb_prop in H as [H|H]; [rewrite H; reflexivity|].
      simpl in H. rewrite H, !orb_true_r. reflexivity.
    + apply Forall2_app; [apply Forall2_same; auto|].
      constructor; [simpl; rewrite Hv; discriminate|].
      apply Forall2_app; [|apply Forall2_same; auto].
      rewrite descendants_editTarget. destruct (itemType x).
      * apply Forall2_same; auto.
      * apply Forall2_map_self. intros n _. rewrite updateSubItem_unfold. simpl.
        rewrite Hv. discriminate.
  - unfold descendants in Vd. rewrite Hs in Vd. simpl in Vd.
    destruct (IH Vd) as [IH1 IH2].
    assert (Hx : existsb (fun child => view (permissions child)) subs' = true ->
                 view (permissions x) = true).
    { intros H. apply Vx. rewrite Hs. simpl. apply IH1, H. }
    split.
    + intros H. apply orb_prop in H as [H|H]; [rewrite H; reflexivity|].
      apply orb_prop in H as [H|H].
      * rewrite (Hx H), orb_true_r. reflexivity.
      * rewrite H, !orb_true_r. reflexivity.
    + apply Forall2_app; [apply Forall2_same; auto|].
      constructor; [exact Hx|].
      apply Forall2_app; [|apply Forall2_same; auto].
      unfold descendants at 1 2. rewrite Hs. simpl. exact IH2.
Qed.

(** X18: in a tree with unique ids, an edit that applies view on turns the
    view of no node off; an edit that applies view off turns the view of no
    node on, provided every folder with a viewable sub item was viewable. *)
Theorem edit_changes_view_one_way st targetId newPermissions item ps :
  NoDup (List.map id (nodes (data st))) ->
  findItemAndParents (data st) targetId [] = Some (item, ps) ->
  (upd_view (appliedFlags newPermissions item) = true ->
   Forall2 (fun n n' => view (permissions n) = true -> view (permissions n') = true)
           (nodes (data st))
           (nodes (data (updatePermissions st targetId newPermissions))))
  /\ (upd_view (appliedFlags newPermissions item) = false ->
      Forall viewCoversSubItems (nodes (data st)) ->
      Forall2 (fun n n' => view (permissions n') = true -> view (permissions n) = true)
              (nodes (data st))
              (nodes (data (updatePermissions st targetId newPermissions)))).
Proof.
  intros Hnd H.
  pose proof (edit_along_path st targetId newPermissions item ps Hnd H) as E.
  split.
  - intros Hv. eapply EditedAlong_view_on; eassumption.
  - intros Hv V. eapply EditedAlong_view_off; eassumption.
Qed.

(** ** The entries of the ancestors above the parent *)

(** An ancestor above the parent of the target holds no sub item with the
    target id. *)
Lemma FoundAt_upper_ancestor targetId items item ps :
  FoundAt targetId items item ps ->
  NoDup (List.map id (nodes items)) ->
  forall p, In p ps -> last ps <> Some p ->
    exists subs,
      subItems p = Some subs
      /\ Forall (fun s => id s <> targetId) subs.
Proof.
  induction 1 as [before x after Hb Hx|before x after subs item ps Hb Hx Hs Hf IH];
    intros Hnd p Hp Hlast; [destruct Hp|].
  destruct (NoDup_ids_split _ _ _ Hnd) as (Hd & _ & _).
  assert (Ed : descendants x = nodes subs) by (unfold descendants; rewrite Hs; reflexivity).
  rewrite Ed in Hd.
  destruct ps as [|q ps].
  - destruct Hp as [<-|[]]. exfalso. apply Hlast. reflexivity.
  - change (last (q :: ps) <> Some p) in Hlast.
    destruct Hp as [<-|Hp]; [|apply IH; assumption].
    exists subs. split; [exact Hs|].
    inversion Hf as [|before' q' after' subs' item' ps' Hb' Hq' Hs' Hf' E1 E2 E3]; subst.
    destruct (NoDup_ids_split _ _ _ Hd) as (_ & _ & Hsplit).
    destruct (FoundAt_In _ _ _ _ Hf') as [Hitem _].
    pose proof (FoundAt_id _ _ _ _ Hf') as Hid.
    apply Forall_app. split; [|constructor; [exact Hq'|]].
    + apply List.Forall_forall. intros s Hsin E. apply Hb'. rewrite <- E.
      apply in_map, In_nodes_self, Hsin.
    + apply List.Forall_forall. intros s Hsin E.
      apply (Hsplit (id item)).
      * right. unfold descendants. rewrite Hs'. apply in_map, Hitem.
      * rewrite Hid, <- E. apply in_map, In_nodes_self, Hsin.
Qed.

(** X19: in a tree with unique ids, when the new view is off, the entry
    collected for an ancestor above the parent of the target is made of the
    views its sub items had before the edit: view says whether one of them
    was viewable, download is the download of the ancestor and that view. *)
Theorem upper_ancestor_entry_reads_old_views st targetId newPermissions item ps p :
  NoDup (List.map id (nodes (data st))) ->
  findItemAndParents (data st) targetId [] = Some (item, ps) ->
  upd_view (appliedFlags newPermissions item) = false ->
  In p ps -> last ps <> Some p ->
  exists diff,
    editDiff st targetId newPermissions = Some diff
    /\ diff !! id p =
       Some {| entry_view :=
                 existsb (fun child => view (permissions child))
                         (or_empty (subItems p));
               entry_download :=
                 download (permissions p)
                 && existsb (fun child => view (permissions child))
                            (or_empty (subItems p));
               entry_itemType := itemType p |}.
Proof.
  intros Hnd H Hv Hp Hlast. unfold editDiff. rewrite H.
  eexists. split; [reflexivity|].
  apply FoundAt_iff in H.
  pose proof (FoundAt_NoDup_path _ _ _ _ H Hnd) as Hpath.
  pose proof (FoundAt_id _ _ _ _ H) as Hid.
  destruct (FoundAt_upper_ancestor _ _ _ _ H Hnd p Hp Hlast) as (subs & Hs & Hne).
  rewrite (collectChanges_lookup_parent_off _ item ps Hpath p Hv Hp).
  unfold parentSomeViewable. rewrite Hs. simpl.
  assert (E : existsb (fun subItem =>
                         if String.eqb (id subItem) (id item)
                         then upd_view (appliedFlags newPermissions item)
                         else view (permissions subItem)) subs =
              existsb (fun child => view (permissions child)) subs).
  { clear Hs. induction Hne as [|s l Hsne _ IHl]; [reflexivity|]. simpl.
    assert (Hs' : String.eqb (id s) (id item) = false)
      by (apply String.eqb_neq; congruence).
    rewrite Hs', IHl. reflexivity. }
  rewrite E. unfold and_or_false. simpl.
  destruct (download (permissions p)); reflexivity.
Qed.

(** ** The further theorems at concrete inputs *)

Lemma exStatePartial_unique_ids : NoDup (List.map id (nodes (data exStatePartial))).
Proof. apply (bool_decide_unpack _). vm_compute. exact I. Defined.

Lemma exStatePartial_found :
  findItemAndParents (data exStatePartial) "Doc2" [] =
  Some (exDocument "Doc2" false false, [exFolderA]).
Proof. reflexivity. Defined.



Lemma edit_follows_path_witness :
  EditedAlong (appliedFlags ["view"%string] (exDocument "Doc2" false false))
              [exFolderA] (exDocument "Doc2" false false)
              (data exStatePartial)
              (data (updatePermissions exStatePartial "Doc2" ["view"%string])).
Proof.
  apply (edit_follows_path exStatePartial "Doc2" ["view"%string]
           (exDocument "Doc2" false false) [exFolderA]
           exStatePartial_unique_ids exStatePartial_found).
Defined.

Lemma edit_leaves_other_nodes_witness :
  Forall2 (fun n n' => n' = n \/ n = exDocument "Doc2" false false
                       \/ In n (descendants (exDocument "Doc2" false false))
                       \/ In n [exFolderA])
          (nodes (data exStatePartial))
          (nodes (data (updatePermissions exStatePartial "Doc2" ["view"%string]))).
Proof.
  apply (edit_leaves_other_nodes exStatePartial "Doc2" ["view"%string]
           (exDocument "Doc2" false false) [exFolderA]
           exStatePartial_unique_ids exStatePartial_found).
Defined.

Lemma exStatePartial_wellShaped : Forall wellShaped (nodes (data exStatePartial)).
Proof. repeat constructor; eexists; reflexivity. Defined.

Lemma exStatePartial_partialView :
  Forall partialViewConsistent (nodes (data exStatePartial)).
Proof. repeat constructor. Defined.

Lemma edit_keeps_shape_and_partial_view_witness :
  Forall wellShaped
         (nodes (data (updatePermissions exStatePartial "Doc2" ["view"%string])))
  /\ Forall partialViewConsistent
            (nodes (data (updatePermissions exStatePartial "Doc2" ["view"%string]))).
Proof.
  apply (edit_keeps_shape_and_partial_view exStatePartial "Doc2" ["view"%string]
           exStatePartial_unique_ids exStatePartial_wellShaped
           exStatePartial_partialView).
Defined.


Lemma built_tree_download_implies_view_through_edits_witness :
  Forall (fun n => downloadImpliesView n = true)
         (nodes (data (updatePermissionsAll
                         {| data := exBuiltTree; pendingChanges := ∅ |} exEdits))).
Proof.
  apply (built_tree_download_implies_view_through_edits exItems exOverrides 3
           exBuiltTree exEdits).
  - repeat constructor.
  - reflexivity.
Defined.

Lemma collected_entries_agree_with_tree_witness :
  exists diff item' ps',
    editDiff exStatePartial "Doc2" ["view"%string] = Some diff
    /\ findItemAndParents (data (updatePermissions exStatePartial "Doc2" ["view"%string]))
                          "Doc2" [] = Some (item', ps')
    /\ diff !! id item' = Some (entryOf item')
    /\ (itemType (exDocument "Doc2" false false) = DATAROOM_FOLDER ->
        Forall (fun n' => diff !! id n' = Some (entryOf n')) (descendants item'))
    /\ (upd_view (appliedFlags ["view"%string] (exDocument "Doc2" false false)) = true ->
        Forall (fun p' => diff !! id p' = Some (entryOf p')) ps')
    /\ (forall p', last ps' = Some p' -> diff !! id p' = Some (entryOf p')).
Proof.
  apply (collected_entries_agree_with_tree exStatePartial "Doc2" ["view"%string]
           (exDocument "Doc2" false false) [exFolderA]
           exStatePartial_unique_ids exStatePartial_found).
Defined.

Lemma search_returns_first_match_and_its_path_witness :
  id (exDocument "Doc2" false false) = "Doc2"%string
  /\ (exists before after,
        nodes (data exStatePartial) = before ++ exDocument "Doc2" false false :: after
        /\ ~ In "Doc2"%string (List.map id before))
  /\ exists ancestors,
       [exFolderA] = [] ++ ancestors
       /\ In (hd (exDocument "Doc2" false false) ancestors) (data exStatePartial)
       /\ leadsTo ancestors (exDocument "Doc2" false false)
       /\ Forall (fun p => id p <> "Doc2"%string) ancestors.
Proof.
  apply (search_returns_first_match_and_its_path (data exStatePartial) "Doc2" []
           (exDocument "Doc2" false false) [exFolderA] exStatePartial_found).
Defined.

Lemma edit_merges_last_write_wins_witness :
  pendingChanges (updatePermissions exStatePending "doc1" ["view"%string]) !! "doc1"%string =
  match ({[ "doc1"%string := {| entry_view := true; entry_download := false;
                                entry_itemType := DATAROOM_DOCUMENT |} ]}
         : ItemPermission) !! "doc1"%string with
  | Some e => Some e
  | None => pendingChanges exStatePending !! "doc1"%string
  end.
Proof.
  apply (edit_merges_last_write_wins exStatePending "doc1" ["view"%string]
           {[ "doc1"%string := {| entry_view := true; entry_download := false;
                                  entry_itemType := DATAROOM_DOCUMENT |} ]}
           "doc1"%string).
  reflexivity.
Defined.

Lemma pending_entries_keep_download_implies_view_witness :
  map_Forall (fun _ e => entryDownloadImpliesView e = true)
             (pendingChanges (updatePermissionsAll
                                {| data := exBuiltTree; pendingChanges := ∅ |} exEdits)).
Proof.
  apply (pending_entries_keep_download_implies_view exEdits
           {| data := exBuiltTree; pendingChanges := ∅ |}).
  apply map_Forall_empty.
Defined.


Lemma buildTree_returns_with_unique_folder_ids_witness :
  exists tree,
    buildTree (S (length (allFolders exItems))) exItems exOverrides None = Some tree
    /\ forall fuel tree',
         buildTree fuel exItems exOverrides None = Some tree' -> tree' = tree.
Proof.
  apply (buildTree_returns_with_unique_folder_ids exItems exOverrides).
  apply (bool_decide_unpack _). vm_compute. exact I.
Defined.

Lemma buildTree_never_returns_on_self_parent_witness :
  (forall fuel, buildTree fuel exLoopItems exOverrides (Some (raw_id exLoop)) = None)
  /\ (forall g, In g exLoopItems -> raw_document g = None -> raw_parentId g = None ->
                raw_id g = raw_id exLoop ->
                forall fuel, buildTree fuel exLoopItems exOverrides None = None).
Proof.
  apply (buildTree_never_returns_on_self_parent exLoopItems exOverrides exLoop).
  - right. left. reflexivity.
  - reflexivity.
  - reflexivity.
Defined.

Lemma displayed_toggles_request_current_state_witness :
  requested ["partialView"%string; "view"%string] =
  {| upd_view := view (permissions exFolderA);
     upd_download := download (permissions exFolderA) |}
  /\ exists item' ps',
       findItemAndParents
         (data (handleValueChange exStatePartial exFolderA
                                  ["partialView"%string; "view"%string]))
         (id exFolderA) [] = Some (item', ps')
       /\ view (permissions item') = view (permissions exFolderA)
       /\ download (permissions item') =
          download (permissions exFolderA) && view (permissions exFolderA).
Proof.
  apply (displayed_toggles_request_current_state exStatePartial exFolderA
           ["partialView"%string; "view"%string] []).
  - apply perm_swap.
  - reflexivity.
Defined.

Lemma view_off_then_on_loses_download_witness :
  exists item'' ps'',
    findItemAndParents
      (data (updatePermissions (updatePermissions exStatePartial "FolderA" [])
                               "FolderA" ["view"%string]))
      "FolderA" [] = Some (item'', ps'')
    /\ permissions item'' =
       {| view := true; download := false; partialView := Some false |}
    /\ List.map id (descendants item'') = List.map id (descendants exFolderA)
    /\ Forall (fun n => permissions n =
                        {| view := true; download := false;
                           partialView := Some false |})
              (descendants item'').
Proof.
  apply (view_off_then_on_loses_download exStatePartial "FolderA" exFolderA []);
    reflexivity.
Defined.


Lemma edit_changes_view_one_way_witness :
  (upd_view (appliedFlags ["view"%string] (exDocument "Doc2" false false)) = true ->
   Forall2 (fun n n' => view (permissions n) = true -> view (permissions n') = true)
           (nodes (data exStatePartial))
           (nodes (data (updatePermissions exStatePartial "Doc2" ["view"%string]))))
  /\ (upd_view (appliedFlags ["view"%string] (exDocument "Doc2" false false)) = false ->
      Forall viewCoversSubItems (nodes (data exStatePartial)) ->
      Forall2 (fun n n' => view (permissions n') = true -> view (permissions n) = true)
              (nodes (data exStatePartial))
              (nodes (data (updatePermissions exStatePartial "Doc2" ["view"%string])))).
Proof.
  apply (edit_changes_view_one_way exStatePartial "Doc2" ["view"%string]
           (exDocument "Doc2" false false) [exFolderA]
           exStatePartial_unique_ids exStatePartial_found).
Defined.

Lemma upper_ancestor_entry_reads_old_views_witness :
  exists diff,
    editDiff exStateDeep "D" [] = Some diff
    /\ diff !! "G"%string =
       Some {| entry_view := true; entry_download := false;
               entry_itemType := DATAROOM_FOLDER |}.
Proof.
  apply (upper_ancestor_entry_reads_old_views exStateDeep "D" []
           (exDocument "D" true false)
           [exFolder "G" true false false
              [exFolder "P" true false false [exDocument "D" true false]];
            exFolder "P" true false false [exDocument "D" true false]]
           (exFolder "G" true false false
              [exFolder "P" true false false [exDocument "D" true false]])).
  - apply (bool_decide_unpack _). vm_compute. exact I.
  - reflexivity.
  - reflexivity.
  - left. reflexivity.
  - discriminate.
Defined.
